(** * iNaturalist leaf taxa by first observation date

    A shallow embedding of [src/inaturalist/list_leaf_taxa_by_date.py]:
    the taxonomy reduction of [list_leaf_taxa_by_date] (taxon map, ancestor
    exclusion, collapse of infra-species ranks, stable sort by first date,
    CSV rows), [title_case], and the paginated [fetch_observations] with its
    cache file.

    Conventions.
    - A Python [dict] is an association list in insertion order ([odict]):
      assigning to an existing key keeps the key's position, a new key goes
      to the end.  Python [set]s are stdpp [gset]s.
    - Python [int]s are [Z]; [str] is [string] (8-bit characters: case
      mapping and the whitespace test are those of ASCII, other characters
      are carried unchanged and compared by code).
    - Code that can raise returns [result]; the exception is named.
    - A JSON object is a record of the keys the program reads. *)

From Stdlib Require Import ZArith String Ascii List Bool Lia.
From Stdlib Require Import DecimalString.
From stdpp Require Import base decidable list gmap strings sorting.
Import ListNotations.

Local Open Scope string_scope.
Local Open Scope Z_scope.
Local Open Scope list_scope.

(** ** Exceptions *)

Inductive exn : Type :=
| KeyError
| AttributeError
| IndexError
| ValueError
| JSONDecodeError.

Inductive result (A : Type) : Type :=
| Ok (a : A)
| Raise (e : exn).

Arguments Ok {A} a.
Arguments Raise {A} e.

#[global] Instance result_ret : MRet result := fun A a => Ok a.

#[global] Instance result_bind : MBind result := fun A B k r =>
  match r with
  | Ok a => k a
  | Raise e => Raise e
  end.

(** A loop [for a in l: s = f(s, a)] whose body can raise. *)
Fixpoint foldM {A S : Type} (f : S -> A -> result S) (l : list A) (s : S)
  : result S :=
  match l with
  | [] => Ok s
  | a :: l' => s' ← f s a; foldM f l' s'
  end.

(** ** Strings as Python uses them *)

Definition code (c : ascii) : N := N_of_ascii c.

(** [str.isspace] on one character, as [str.split()] uses it.  Exact on
    ASCII text: the whitespace of ASCII is 9-13, 28-31 and the space.
    Python also splits on whitespace outside ASCII (U+0085, U+00A0, U+2028
    and others), which this test does not see. *)
Definition is_space (c : ascii) : bool :=
  let n := code c in
  ((9 <=? n) && (n <=? 13) || (28 <=? n) && (n <=? 32))%N.

(** [c.upper()] on one character.  Exact on ASCII text; [str.upper] also
    maps letters outside ASCII, some to several characters, which are left
    unchanged here. *)
Definition upper_char (c : ascii) : ascii :=
  let n := code c in
  if ((97 <=? n) && (n <=? 122))%N then ascii_of_N (n - 32) else c.

(** [c.lower()] on one character.  Exact on ASCII text, as [upper_char]. *)
Definition lower_char (c : ascii) : ascii :=
  let n := code c in
  if ((65 <=? n) && (n <=? 90))%N then ascii_of_N (n + 32) else c.

Fixpoint lower (s : string) : string :=
  match s with
  | EmptyString => EmptyString
  | String c s' => String (lower_char c) (lower s')
  end.

(** [flush w] closes the word being read: nothing when no character of a
    word has been read. *)
Definition flush (w : string) : list string :=
  match w with
  | EmptyString => []
  | _ => [w]
  end.

(** [text.split()]: the maximal runs of non-whitespace characters.
    [split_from w s] has read [w] of the current word. *)
Fixpoint split_from (w : string) (s : string) : list string :=
  match s with
  | EmptyString => flush w
  | String c s' =>
      if is_space c then flush w ++ split_from EmptyString s'
      else split_from (String.append w (String c EmptyString)) s'
  end.

Definition split (text : string) : list string := split_from EmptyString text.

(** [word[0]]: raises [IndexError] on the empty string. *)
Definition first_char (word : string) : result ascii :=
  match word with
  | EmptyString => Raise IndexError
  | String c _ => Ok c
  end.

(** [word[1:]]: a slice never raises. *)
Definition rest_chars (word : string) : string :=
  match word with
  | EmptyString => EmptyString
  | String _ s' => s'
  end.

(** [word[0].upper() + word[1:]] *)
Definition capitalize_word (word : string) : result string :=
  c ← first_char word; Ok (String (upper_char c) (rest_chars word)).

(** [" ".join(words)] *)
Definition join (words : list string) : string := String.concat " " words.

Definition title_case (text : string) : result string :=
  words ← mapM capitalize_word (split text); Ok (join words).

(** A call [title_case(v)] where [v] may be [None]: [None.split] raises. *)
Definition title_case_value (v : option string) : result string :=
  match v with
  | None => Raise AttributeError
  | Some text => title_case text
  end.

Definition UNKNOWN : string := "<Unknown>".

(** [s or UNKNOWN] *)
Definition or_unknown (s : string) : string :=
  match s with
  | EmptyString => UNKNOWN
  | _ => s
  end.

(** [str(n)] for an [int]. *)
Definition str_of_Z (n : Z) : string := NilZero.string_of_int (Z.to_int n).

(** Python's [min(a, b)] on strings: the first of the smallest. *)
Definition min_str (a b : string) : string := if String.ltb b a then b else a.

(** ** Ordered dictionaries *)

Abbreviation odict V := (list (Z * V)).

Section odict.
Context {V : Type}.

Fixpoint od_get (d : list (Z * V)) (k : Z) : option V :=
  match d with
  | [] => None
  | (k', v) :: d' => if Z.eqb k k' then Some v else od_get d' k
  end.

(** [d[k] = v] *)
Fixpoint od_set (d : list (Z * V)) (k : Z) (v : V) : list (Z * V) :=
  match d with
  | [] => [(k, v)]
  | (k', v') :: d' =>
      if Z.eqb k k' then (k, v) :: d' else (k', v') :: od_set d' k v
  end.

(** [k in d] *)
Definition od_mem (d : list (Z * V)) (k : Z) : bool :=
  match od_get d k with
  | Some _ => true
  | None => false
  end.

(** [d.get(k, default)] *)
Definition od_get_default (d : list (Z * V)) (k : Z) (default : V) : V :=
  match od_get d k with
  | Some v => v
  | None => default
  end.

(** [d[k]] as an expression: [KeyError] on a missing key. *)
Definition od_index (d : list (Z * V)) (k : Z) : result V :=
  match od_get d k with
  | Some v => Ok v
  | None => Raise KeyError
  end.

Definition od_keys (d : list (Z * V)) : list Z := fst <$> d.

End odict.

(** ** Data model *)

(** A key of a JSON object read with [.get(key, default)]: absent, [null],
    or a value. *)
Inductive jfield (A : Type) : Type :=
| Absent
| Null
| Value (a : A).

Arguments Absent {A}.
Arguments Null {A}.
Arguments Value {A} a.

(** The [taxon] object of an observation.  [rank], [ancestor_ids] and
    [name] are read with [.get(key)]: [None] stands for an absent key or
    [null], which the program does not tell apart. *)
Module Taxon.
Record t : Type := mk {
  id : Z;
  rank : option string;
  ancestor_ids : option (list Z);
  name : option string;
  preferred_common_name : jfield string
}.
End Taxon.

(** An observation.  [taxon = None] stands for an absent key, [null] or an
    empty object: all are falsy at [if not taxon]. *)
Module Observation.
Record t : Type := mk {
  id : Z;
  observed_on : option string;
  taxon : option Taxon.t
}.
End Observation.

(** The dictionary stored per taxon id in [taxon_id_to_info]. *)
Module TaxonInfo.
Record t : Type := mk {
  id : Z;
  rank : option string;
  ancestor_ids : list Z;
  name : option string;
  common_name : option string
}.
End TaxonInfo.

(** ** The reduction of [list_leaf_taxa_by_date] *)

Definition SENTINEL : string := "9999-99-99".

Definition INFRARANKS : gset string :=
  {[ "subspecies"; "variety"; "form"; "infraspecies";
     "subvariety"; "subform"; "cultivar"; "race" ]}.

(** Truthiness of an optional string: [None] and [""] are falsy. *)
Definition truthy_str (v : option string) : option string :=
  match v with
  | Some EmptyString => None
  | _ => v
  end.

(** Truthiness of an optional [int]: [None] and [0] are falsy. *)
Definition truthy_int (v : option Z) : option Z :=
  match v with
  | Some 0 => None
  | _ => v
  end.

(** [taxon.get("preferred_common_name", "")] *)
Definition get_common_name (taxon : Taxon.t) : option string :=
  match Taxon.preferred_common_name taxon with
  | Absent => Some EmptyString
  | Null => None
  | Value s => Some s
  end.

Record tables : Type := mk_tables {
  taxon_id_to_info : odict TaxonInfo.t;
  taxon_id_to_date_first_observed : odict string
}.

(** The body of the loop over the observations (lines 73-97). *)
Definition record_observation (st : tables) (observation : Observation.t)
  : tables :=
  match Observation.taxon observation with
  | None => st
  | Some taxon =>
      let taxon_id := Taxon.id taxon in
      let ancestors :=
        filter (fun ancestor_id => ancestor_id <> taxon_id)
               (default [] (Taxon.ancestor_ids taxon)) in
      let info :=
        {| TaxonInfo.id := taxon_id;
           TaxonInfo.rank := Taxon.rank taxon;
           TaxonInfo.ancestor_ids := ancestors;
           TaxonInfo.name := Taxon.name taxon;
           TaxonInfo.common_name := get_common_name taxon |} in
      let infos := od_set (taxon_id_to_info st) taxon_id info in
      let dates := taxon_id_to_date_first_observed st in
      match truthy_str (Observation.observed_on observation) with
      | None => mk_tables infos dates
      | Some obs_date =>
          mk_tables infos
            (od_set dates taxon_id
               (if od_mem dates taxon_id
                then min_str (od_get_default dates taxon_id obs_date) obs_date
                else obs_date))
      end
  end.

Definition build_tables (observations : list Observation.t) : tables :=
  foldl record_observation (mk_tables [] []) observations.

(** Lines 100-102: the union of the stored ancestor lists. *)
Definition collect_ancestor_ids (infos : odict TaxonInfo.t) : gset Z :=
  foldl (fun acc kv => acc ∪ list_to_set (TaxonInfo.ancestor_ids kv.2))
        ∅ infos.

(** Lines 104-108.  The keys of [infos] are distinct, so the comprehension
    keeps the selected items in their order. *)
Definition leaf_taxa (infos : odict TaxonInfo.t) : odict TaxonInfo.t :=
  filter (fun kv => kv.1 ∉ collect_ancestor_ids infos) infos.

(** Lines 116-122, on the reversed ancestor list. *)
Fixpoint find_species (infos : odict TaxonInfo.t) (reversed : list Z)
  : option Z :=
  match reversed with
  | [] => None
  | ancestor_id :: rest =>
      match od_get infos ancestor_id with
      | Some anc =>
          if bool_decide (TaxonInfo.rank anc = Some "species")
          then Some ancestor_id
          else find_species infos rest
      | None => find_species infos rest
      end
  end.

(** Lines 113-122: the value of [species_id] after the search. *)
Definition species_id_of (infos : odict TaxonInfo.t) (info : TaxonInfo.t)
  : option Z :=
  let rank := lower (default EmptyString (TaxonInfo.rank info)) in
  if bool_decide (rank ∈ INFRARANKS)
  then find_species infos (reverse (TaxonInfo.ancestor_ids info))
  else None.

(** Line 124: the species the candidate is collapsed into, when
    [species_id] is truthy. *)
Definition collapse_target (infos : odict TaxonInfo.t) (info : TaxonInfo.t)
  : option Z :=
  truthy_int (species_id_of infos info).

Record collapse_state : Type := mk_collapse {
  collapsed_taxon_id_to_info : odict TaxonInfo.t;
  dates_first_observed : odict string
}.

(** The body of the loop over the leaf candidates (lines 112-133). *)
Definition collapse_step (infos : odict TaxonInfo.t) (st : collapse_state)
  (item : Z * TaxonInfo.t) : result collapse_state :=
  let '(taxon_id, info) := item in
  let collapsed := collapsed_taxon_id_to_info st in
  let dates := dates_first_observed st in
  match collapse_target infos info with
  | Some species_id =>
      parent ← od_index infos species_id;
      let parent_id := TaxonInfo.id parent in
      Ok (mk_collapse
            (od_set collapsed parent_id parent)
            (od_set dates parent_id
               (min_str (od_get_default dates parent_id SENTINEL)
                        (od_get_default dates taxon_id SENTINEL))))
  | None => Ok (mk_collapse (od_set collapsed taxon_id info) dates)
  end.

(** ** Sorting *)

Section sorting.
Context {A : Type} (key : A -> string).

Fixpoint insert_by (x : A) (l : list A) : list A :=
  match l with
  | [] => [x]
  | y :: l' =>
      if String.leb (key x) (key y) then x :: y :: l'
      else y :: insert_by x l'
  end.

(** [sorted(l, key=key)]: the stable sort; an element goes in front of the
    later elements whose key is not smaller. *)
Definition sorted_by (l : list A) : list A := foldr insert_by [] l.

End sorting.

Record reduction : Type := mk_reduction {
  infos_of : odict TaxonInfo.t;
  leaves_of : odict TaxonInfo.t;
  final_leaf_taxon_id_to_info : odict TaxonInfo.t;
  final_dates : odict string;
  sorted_leaf_taxon_id_info_tuples : list (Z * TaxonInfo.t)
}.

Definition sort_key (dates : odict string) (item : Z * TaxonInfo.t) : string :=
  od_get_default dates item.1 SENTINEL.

(** Lines 70-143. *)
Definition reduce (observations : list Observation.t) : result reduction :=
  let t := build_tables observations in
  let infos := taxon_id_to_info t in
  let leaves := leaf_taxa infos in
  st ← foldM (collapse_step infos) leaves
        (mk_collapse [] (taxon_id_to_date_first_observed t));
  let final := collapsed_taxon_id_to_info st in
  let dates := dates_first_observed st in
  Ok (mk_reduction infos leaves final dates
        (sorted_by (sort_key dates) final)).

(** ** The report *)

Definition TAXON_URL (taxon_id : Z) : string :=
  String.append "https://www.inaturalist.org/taxa/" (str_of_Z taxon_id).

Definition column_names : list string :=
  ["Index"; "Date"; "Common Name"; "Scientific Name"; "Rank"; "URL"].

(** Lines 166-172: the values of one row. *)
Definition row_values (dates : odict string) (i : Z)
  (item : Z * TaxonInfo.t) : result (list string) :=
  let '(taxon_id, info) := item in
  let index := str_of_Z i in
  date ← od_index dates taxon_id;
  common_name ← title_case_value (TaxonInfo.common_name info);
  scientific_name ← title_case_value (TaxonInfo.name info);
  rank ← title_case_value (TaxonInfo.rank info);
  Ok [index; date; or_unknown common_name; or_unknown scientific_name;
      rank; TAXON_URL taxon_id].

(** [for i, item in enumerate(items, start=i)] *)
Fixpoint rows_from (dates : odict string) (i : Z)
  (items : list (Z * TaxonInfo.t)) : result (list (list string)) :=
  match items with
  | [] => Ok []
  | item :: rest =>
      row ← row_values dates i item;
      rows ← rows_from dates (i + 1) rest;
      Ok (row :: rows)
  end.

(** Lines 158-173: [None] when there is no leaf taxon (no file is written),
    else the lines of the CSV file. *)
Definition write_report (r : reduction) : result (option (list (list string))) :=
  match final_leaf_taxon_id_to_info r with
  | [] => Ok None
  | _ =>
      rows ← rows_from (final_dates r) 1 (sorted_leaf_taxon_id_info_tuples r);
      Ok (Some (column_names :: rows))
  end.

Definition report (observations : list Observation.t)
  : result (option (list (list string))) :=
  r ← reduce observations; write_report r.

(** ** The cache file *)

(** The text of a cache file, kept as the pieces [json.dump] writes one
    after the other: the opening bracket, the observations, the closing
    bracket.  A text that is not a whole document does not load. *)
Inductive chunk : Type :=
| ArrayOpen
| Item (observation : Observation.t)
| ArrayClose.

Definition json_dump (observations : list Observation.t) : list chunk :=
  ArrayOpen :: (Item <$> observations) ++ [ArrayClose].

Fixpoint load_items (text : list chunk) : result (list Observation.t) :=
  match text with
  | [ArrayClose] => Ok []
  | Item observation :: text' =>
      observations ← load_items text'; Ok (observation :: observations)
  | _ => Raise JSONDecodeError
  end.

Definition json_load (text : list chunk) : result (list Observation.t) :=
  match text with
  | ArrayOpen :: text' => load_items text'
  | _ => Raise JSONDecodeError
  end.

(** The files, by path. *)
Abbreviation files := (gmap string (list chunk)).

Inductive fs_op : Type :=
| OpenW (fp : string)                   (* open(fp, "w"): create or truncate *)
| Write (fp : string) (piece : chunk).  (* file.write(piece): append *)

Definition apply_op (fs : files) (op : fs_op) : files :=
  match op with
  | OpenW fp => <[fp := []]> fs
  | Write fp piece => <[fp := default [] (fs !! fp) ++ [piece]]> fs
  end.

Definition run_ops (ops : list fs_op) (fs : files) : files :=
  foldl apply_op fs ops.

(** Lines 289-290: [with open(fp, "w") as file: json.dump(merged, file)]. *)
Definition persist_ops (fp : string) (observations : list Observation.t)
  : list fs_op :=
  OpenW fp :: (Write fp <$> json_dump observations).

Definition persist (fp : string) (observations : list Observation.t)
  (fs : files) : files :=
  run_ops (persist_ops fp observations) fs.

(** ** Fetching *)

Definition OBS_CACHE_FP (username : string) : string :=
  String.append "./cache/observations." (String.append username ".json").

Definition PER_PAGE : Z := 200.

(** Pauses, in milliseconds. *)
Definition SLEEP_BETWEEN_CALLS : Z := 300.
Definition BACKOFF : Z := 60000.
Definition RETRY_PAUSE : Z := 5000.

(** What the remote source answers to one request: the status and, for a
    status 200, the [results] array of the body. *)
Record response : Type := mk_response {
  status_code : Z;
  results : list Observation.t
}.

Inductive message : Type :=
| LoadingCache (fp : string)
| LoadedCache (n : Z)
| LastCachedDate (d : string)
| Fetching (username : string)
| StartingOn (d : string)
| RateLimited
| InvalidRequest
| HttpRetry (status : Z)
| FetchedPage (num_new_observations page : Z)
| Added (n : Z)
| Saved (n : Z) (fp : string)
| NoNewObservations.

Inductive event : Type :=
| Log (m : message)
| Get (d1 : option string) (page : Z)
| Sleep (ms : Z).

(** Python's [max] over a non-empty list of strings. *)
Definition max_str (a b : string) : string := if String.ltb a b then b else a.

Definition max_date (dates : list string) : option string :=
  match dates with
  | [] => None
  | d :: rest => Some (foldl max_str d rest)
  end.

Definition len {A : Type} (l : list A) : Z := Z.of_nat (length l).

Record loop_result : Type := mk_loop {
  new_observations : list Observation.t;
  valid_request : bool;
  loop_trace : list event;
  unread : list response
}.

(** Lines 250-279.  Each turn of the loop takes the next answer of the
    remote source; [None] when the answers run out before the loop has
    ended. *)
Fixpoint fetch_loop (d1 : option string) (script : list response)
  (page : Z) (new_obs : list Observation.t) (num_new_observations : Z)
  (trace : list event) : option loop_result :=
  match script with
  | [] => None
  | response :: script' =>
      let trace := trace ++ [Get d1 page] in
      if status_code response =? 429 then
        fetch_loop d1 script' page new_obs num_new_observations
                   (trace ++ [Log RateLimited; Sleep BACKOFF])
      else if status_code response =? 422 then
        Some (mk_loop new_obs false (trace ++ [Log InvalidRequest]) script')
      else if negb (status_code response =? 200) then
        fetch_loop d1 script' page new_obs num_new_observations
                   (trace ++ [Log (HttpRetry (status_code response));
                              Sleep RETRY_PAUSE])
      else
        match results response with
        | [] => Some (mk_loop new_obs true trace script')
        | _ =>
            let new_obs := new_obs ++ results response in
            let num_new_observations :=
              num_new_observations + len (results response) in
            let trace := trace ++ [Log (FetchedPage num_new_observations page)] in
            if len (results response) <? PER_PAGE then
              Some (mk_loop new_obs true trace script')
            else
              fetch_loop d1 script' (page + 1) new_obs num_new_observations
                         (trace ++ [Sleep SLEEP_BETWEEN_CALLS])
        end
  end.

Record fetched : Type := mk_fetched {
  returned : list Observation.t;
  files_after : files;
  trace_of : list event;
  unread_of : list response
}.

Inductive outcome : Type :=
| Returned (r : fetched)
| Raised (e : exn)
| Waiting.

(** Lines 281-287. *)
Definition merge (observations new_obs : list Observation.t)
  : list Observation.t :=
  let existing_ids : gset Z := list_to_set (Observation.id <$> observations) in
  observations ++
    filter (fun observation => Observation.id observation ∉ existing_ids)
           new_obs.

Section fetch.

(** [(datetime.fromisoformat(last_date) + timedelta(days=1)).strftime(...)]:
    the calendar arithmetic of the standard library; it raises on a text
    that is not a date. *)
Variable next_day : string -> result string.

(** Lines 207-224: the cached observations and the last cached date. *)
Definition load_cache (fs : files) (obs_cache_fp : string)
  : result (list Observation.t * option string * list event) :=
  match fs !! obs_cache_fp with
  | None => Ok ([], None, [])
  | Some text =>
      observations ← json_load text;
      let dates :=
        omap (fun o => truthy_str (Observation.observed_on o)) observations in
      let last_date := max_date dates in
      Ok (observations, last_date,
          [Log (LoadingCache obs_cache_fp); Log (LoadedCache (len observations))]
          ++ match last_date with
             | Some d => [Log (LastCachedDate d)]
             | None => []
             end)
  end.

(** Lines 238-243: the [d1] parameter of the requests. *)
Definition start_date (last_date : option string)
  : result (option string * list event) :=
  match truthy_str last_date with
  | None => Ok (None, [])
  | Some d =>
      fetch_start_date ← next_day d;
      Ok (Some fetch_start_date, [Log (StartingOn fetch_start_date)])
  end.

(** Lines 281-301. *)
Definition finish (obs_cache_fp : string) (fs : files)
  (observations : list Observation.t) (l : loop_result) : fetched :=
  match new_observations l with
  | _ :: _ =>
      let merged_observations := merge observations (new_observations l) in
      mk_fetched merged_observations
        (persist obs_cache_fp merged_observations fs)
        (loop_trace l ++ [Log (Added (len (new_observations l)));
                          Log (Saved (len merged_observations) obs_cache_fp)])
        (unread l)
  | [] =>
      mk_fetched observations fs
        (loop_trace l ++
           (if valid_request l then [Log NoNewObservations] else []))
        (unread l)
  end.

Definition fetch_observations (username : string) (fs : files)
  (script : list response) : outcome :=
  let obs_cache_fp := OBS_CACHE_FP username in
  match load_cache fs obs_cache_fp with
  | Raise e => Raised e
  | Ok (observations, last_date, trace0) =>
      match start_date last_date with
      | Raise e => Raised e
      | Ok (d1, trace1) =>
          match fetch_loop d1 script 1 [] 0
                  (trace0 ++ [Log (Fetching username)] ++ trace1) with
          | None => Waiting
          | Some l => Returned (finish obs_cache_fp fs observations l)
          end
      end
  end.

End fetch.

(** ** The whole command *)

(** Lines 62-178, without the table printed on the console: the fetch, the
    reduction and the CSV file. *)
Definition list_leaf_taxa_by_date (next_day : string -> result string)
  (username : string) (fs : files) (script : list response)
  : option (result (option (list (list string)))) :=
  match fetch_observations next_day username fs script with
  | Waiting => None
  | Raised e => Some (Raise e)
  | Returned r => Some (report (returned r))
  end.

(** ** The console table *)

(** Lines 174-175: the rows added to the console table, those with
    [i > num_leaf_taxa - num_to_print]. *)
Fixpoint table_from (num_leaf_taxa num_to_print i : Z)
  (rows : list (list string)) : list (list string) :=
  match rows with
  | [] => []
  | row :: rest =>
      (if num_leaf_taxa - num_to_print <? i then [row] else [])
      ++ table_from num_leaf_taxa num_to_print (i + 1) rest
  end.

(** Lines 158-177: the rows of the table printed on the console; [None]
    when there is no leaf taxon (nothing is printed). *)
Definition console_table (r : reduction) (num_to_print : Z)
  : result (option (list (list string))) :=
  match final_leaf_taxon_id_to_info r with
  | [] => Ok None
  | _ =>
      rows ← rows_from (final_dates r) 1 (sorted_leaf_taxon_id_info_tuples r);
      Ok (Some (table_from (len (final_leaf_taxon_id_to_info r))
                           num_to_print 1 rows))
  end.

(** ** Vocabulary of the properties *)

(** The text is empty or made of whitespace only. *)
Definition all_space (text : string) : bool :=
  forallb is_space (list_ascii_of_string text).

(** [m] is the least string of [L]. *)
Definition is_least (m : string) (L : list string) : Prop :=
  m ∈ L /\ forall d, d ∈ L -> String.leb m d = true.

(** The dates of the observations whose taxon id is in [ids]; an
    observation without a (truthy) [observed_on] has none. *)
Definition dates_of (ids : list Z) (observations : list Observation.t)
  : list string :=
  omap (fun o =>
          match Observation.taxon o with
          | Some taxon =>
              if bool_decide (Taxon.id taxon ∈ ids)
              then truthy_str (Observation.observed_on o)
              else None
          | None => None
          end) observations.

(** The date of the observation, if any, is not above the sentinel (as
    every date written "YYYY-MM-DD" is). *)
Definition well_dated (o : Observation.t) : bool :=
  match truthy_str (Observation.observed_on o) with
  | Some d => String.leb d SENTINEL
  | None => true
  end.

(** A decimal digit. *)
Definition is_digit (c : ascii) : bool :=
  ((48 <=? code c) && (code c <=? 57))%N.

(** A date written "YYYY-MM-DD". *)
Definition iso_date (d : string) : bool :=
  match list_ascii_of_string d with
  | [y1; y2; y3; y4; h1; m1; m2; h2; d1; d2] =>
      forallb is_digit [y1; y2; y3; y4; m1; m2; d1; d2]
      && Ascii.eqb h1 "-" && Ascii.eqb h2 "-"
  | _ => false
  end.

(** The items that the collapse replaces by species [s]. *)
Definition collapsed_items (infos : odict TaxonInfo.t)
  (items : list (Z * TaxonInfo.t)) (s : Z) : list (Z * TaxonInfo.t) :=
  filter (fun item => collapse_target infos item.2 = Some s) items.

(** The ids of the leaf candidates collapsed into species [s]. *)
Definition collapsed_into (r : reduction) (s : Z) : list Z :=
  (collapsed_items (infos_of r) (leaves_of r) s).*1.

(** The sentinel, the date of [k] after the first loop, and the dates of
    the items collapsed into [k]. *)
Definition date_pool (infos : odict TaxonInfo.t) (dates0 : odict string)
  (items : list (Z * TaxonInfo.t)) (k : Z) : list string :=
  SENTINEL :: option_list (od_get dates0 k) ++
    omap (fun item => od_get dates0 item.1) (collapsed_items infos items k).

(** The property as the specification states it: no id of the final leaf
    set is in the stored ancestor list of another taxon. *)
Definition final_ids_are_never_ancestors (observations : list Observation.t)
  : Prop :=
  forall r, reduce observations = Ok r ->
  forall k, k ∈ od_keys (final_leaf_taxon_id_to_info r) ->
  forall k' info', (k', info') ∈ infos_of r -> k' <> k ->
  k ∉ TaxonInfo.ancestor_ids info'.

Definition ids (observations : list Observation.t) : list Z :=
  Observation.id <$> observations.

(** The property as the specification states it: the observations a run
    returns hold no id more than once. *)
Definition returned_ids_distinct (next_day : string -> result string)
  (username : string) (fs : files) (script : list response) : Prop :=
  forall r,
    fetch_observations next_day username fs script = Returned r ->
    NoDup (ids (returned r)).

(** The text is ASCII: every character is below 128.  On such text
    [is_space] and [upper_char] are Python's [str.isspace] and
    [str.upper]. *)
Definition is_ascii (text : string) : bool :=
  forallb (fun c => (code c <? 128)%N) (list_ascii_of_string text).

(** The records of the answers read: the results of those with status
    200. *)
Definition fetched_results (consumed : list response) : list Observation.t :=
  flat_map (fun response =>
              if status_code response =? 200 then results response else [])
           consumed.

(** The pages requested, in order. *)
Definition requests (trace : list event) : list Z :=
  omap (fun e => match e with Get _ page => Some page | _ => None end) trace.

(** The observations in the cache file of [username]. *)
Definition cached (fs : files) (username : string)
  : result (list Observation.t) :=
  match fs !! OBS_CACHE_FP username with
  | None => Ok []
  | Some text => json_load text
  end.

(** The property as the specification states it: wherever the write is
    cut, the cache holds the new text or some file holds the previous
    one. *)
Definition persist_is_atomic (fp : string) (merged : list Observation.t)
  (fs : files) : Prop :=
  forall old, fs !! fp = Some old ->
  forall k,
    run_ops (take k (persist_ops fp merged)) fs !! fp
      = Some (json_dump merged) \/
    exists p, run_ops (take k (persist_ops fp merged)) fs !! p = Some old.

(** The property as the specification states it: a run in which a page
    was answered with 422 returns the cached observations and writes
    nothing. *)
Definition abort_returns_cache_only (next_day : string -> result string)
  (username : string) (fs : files) (script : list response) : Prop :=
  forall r c,
    fetch_observations next_day username fs script = Returned r ->
    Log InvalidRequest ∈ trace_of r ->
    cached fs username = Ok c ->
    returned r = c /\ files_after r = fs.

(** A calendar that accepts no text.  The runs evaluated below have no
    cached date and never call it. *)
Definition no_calendar : string -> result string := fun _ => Raise ValueError.

(** A full page: 200 records. *)
Definition full_page : list Observation.t :=
  (fun i => Observation.mk i None None) <$> seqZ 1 200.

(** The two observations of the example in the specification. *)
Definition ex_obs : list Observation.t :=
  [ Observation.mk 1 (Some "2023-01-05")
      (Some (Taxon.mk 10 (Some "subspecies") (Some [1; 2; 10])
               (Some "Foo bar baz") Absent));
    Observation.mk 2 (Some "2023-01-10")
      (Some (Taxon.mk 2 (Some "species") None (Some "Foo bar") Absent)) ].

(** A subspecies whose species has the id 0. *)
Definition zero_id_obs : list Observation.t :=
  [ Observation.mk 1 (Some "2023-01-05")
      (Some (Taxon.mk 10 (Some "subspecies") (Some [0; 10])
               (Some "Foo bar baz") Absent));
    Observation.mk 2 (Some "2023-01-10")
      (Some (Taxon.mk 0 (Some "species") None (Some "Foo bar") Absent)) ].

(** Two species; the observation of the first has no [observed_on]. *)
Definition undated_obs : list Observation.t :=
  [ Observation.mk 1 None
      (Some (Taxon.mk 5 (Some "species") (Some [1; 5]) (Some "Foo bar") Absent));
    Observation.mk 2 (Some "2023-01-05")
      (Some (Taxon.mk 7 (Some "species") (Some [1; 7]) (Some "Baz qux") Absent)) ].

(** The dictionary stored for a taxon (lines 84-90). *)
Definition info_of_taxon (taxon : Taxon.t) : TaxonInfo.t :=
  {| TaxonInfo.id := Taxon.id taxon;
     TaxonInfo.rank := Taxon.rank taxon;
     TaxonInfo.ancestor_ids :=
       filter (fun ancestor_id => ancestor_id <> Taxon.id taxon)
              (default [] (Taxon.ancestor_ids taxon));
     TaxonInfo.name := Taxon.name taxon;
     TaxonInfo.common_name := get_common_name taxon |}.

(** The observation is of taxon [k]. *)
Definition observes (k : Z) (o : Observation.t) : Prop :=
  exists taxon, Observation.taxon o = Some taxon /\ Taxon.id taxon = k.

(** The row of the entry can be written: the entry has a recorded date,
    and its common name, name and rank are strings (not [None]). *)
Definition row_ready (dates : odict string) (item : Z * TaxonInfo.t) : bool :=
  od_mem dates item.1
  && bool_decide (is_Some (TaxonInfo.common_name item.2))
  && bool_decide (is_Some (TaxonInfo.name item.2))
  && bool_decide (is_Some (TaxonInfo.rank item.2)).

(** [word[0].upper() + word[1:]], for a word known to be non-empty. *)
Definition capitalized (word : string) : string :=
  match word with
  | EmptyString => EmptyString
  | String c rest => String (upper_char c) rest
  end.

(** The word has no whitespace character. *)
Fixpoint no_space (word : string) : bool :=
  match word with
  | EmptyString => true
  | String c rest => negb (is_space c) && no_space rest
  end.

(** The answer ends the loop: a 422, or a 200 with fewer than [PER_PAGE]
    results (an empty page included). *)
Definition ends_loop (resp : response) : bool :=
  (status_code resp =? 422)
  || ((status_code resp =? 200) && (len (results resp) <? PER_PAGE)).

(** The answer makes the loop ask again for the same page: any status but
    200 and 422. *)
Definition is_retry (resp : response) : bool :=
  negb (status_code resp =? 200) && negb (status_code resp =? 422).

(** The page asked before each of the answers, from [page] on: the same
    page again after an answer that is not a 200, the next one after a
    200. *)
Fixpoint pages_from (page : Z) (answers : list response) : list Z :=
  match answers with
  | [] => []
  | resp :: rest =>
      page :: pages_from (if status_code resp =? 200 then page + 1 else page)
                rest
  end.

(** The [d1] parameter of the requests, in order. *)
Definition request_dates (trace : list event) : list (option string) :=
  omap (fun e => match e with Get d1 _ => Some d1 | _ => None end) trace.

(** * Properties *)

(** ** The order on strings *)

Lemma ascii_compare_eq a b : Ascii.compare a b = Eq -> a = b.
Proof. apply Ascii.compare_eq_iff. Qed.

Lemma ascii_compare_trans a b c o :
  Ascii.compare a b = o -> Ascii.compare b c = o -> Ascii.compare a c = o.
Proof.
  unfold Ascii.compare. destruct o; intros H1 H2.
  - apply N.compare_eq in H1. apply N.compare_eq in H2.
    rewrite H1, H2. apply N.compare_refl.
  - rewrite N.compare_lt_iff in *. lia.
  - rewrite N.compare_gt_iff in *. lia.
Qed.

Lemma compare_refl s : String.compare s s = Eq.
Proof.
  induction s as [|c s IH]; simpl; [done|].
  unfold Ascii.compare. by rewrite N.compare_refl.
Qed.

Lemma compare_lt_trans s1 s2 s3 :
  String.compare s1 s2 = Lt -> String.compare s2 s3 = Lt ->
  String.compare s1 s3 = Lt.
Proof.
  revert s2 s3. induction s1 as [|a s1 IH]; intros [|b s2] [|c s3]; simpl;
    try done.
  destruct (Ascii.compare a b) eqn:Hab; try done;
    destruct (Ascii.compare b c) eqn:Hbc; try done; intros H1 H2.
  - rewrite (ascii_compare_trans _ _ _ _ Hab Hbc). eauto.
  - apply ascii_compare_eq in Hab. subst. by rewrite Hbc.
  - apply ascii_compare_eq in Hbc. subst. by rewrite Hab.
  - by rewrite (ascii_compare_trans _ _ _ _ Hab Hbc).
Qed.

Lemma leb_refl s : String.leb s s = true.
Proof. unfold String.leb. by rewrite compare_refl. Qed.

Lemma ltb_leb s1 s2 : String.ltb s1 s2 = negb (String.leb s2 s1).
Proof.
  unfold String.ltb, String.leb. rewrite (String.compare_antisym s2 s1).
  by destruct (String.compare s1 s2).
Qed.

Lemma ltb_true_leb s1 s2 : String.ltb s1 s2 = true -> String.leb s1 s2 = true.
Proof. unfold String.ltb, String.leb. by destruct (String.compare s1 s2). Qed.

Lemma leb_trans s1 s2 s3 :
  String.leb s1 s2 = true -> String.leb s2 s3 = true ->
  String.leb s1 s3 = true.
Proof.
  unfold String.leb.
  destruct (String.compare s1 s2) eqn:H12; try done;
    destruct (String.compare s2 s3) eqn:H23; try done; intros _ _.
  - apply String.compare_eq_iff in H12. subst. by rewrite H23.
  - apply String.compare_eq_iff in H12. subst. by rewrite H23.
  - apply String.compare_eq_iff in H23. subst. by rewrite H12.
  - by rewrite (compare_lt_trans _ _ _ H12 H23).
Qed.

Lemma min_str_cases a b :
  (min_str a b = a /\ String.leb a b = true) \/
  (min_str a b = b /\ String.leb b a = true).
Proof.
  unfold min_str. rewrite ltb_leb.
  destruct (String.leb a b) eqn:H; simpl; [by left|right].
  split; [done|]. destruct (String.leb_total a b); congruence.
Qed.

(** ** [title_case] *)

Lemma flush_nonempty w : Forall (fun word => word <> EmptyString) (flush w).
Proof. destruct w; simpl; repeat constructor; done. Qed.

Lemma split_from_nonempty text : forall w,
  Forall (fun word => word <> EmptyString) (split_from w text).
Proof.
  induction text as [|c text IH]; intros w; simpl.
  - apply flush_nonempty.
  - destruct (is_space c).
    + apply Forall_app. split; [apply flush_nonempty | apply IH].
    + apply IH.
Qed.

Lemma split_nonempty text :
  Forall (fun word => word <> EmptyString) (split text).
Proof. apply split_from_nonempty. Qed.

Lemma capitalize_word_ok word :
  word <> EmptyString -> exists r, capitalize_word word = Ok r.
Proof. destruct word as [|c w]; [done|]. intros _. by eexists. Qed.

Lemma mapM_capitalize_ok words :
  Forall (fun word => word <> EmptyString) words ->
  exists rs, mapM capitalize_word words = Ok rs.
Proof.
  induction 1 as [|word words Hw _ [rs IH]]; [by eexists|].
  destruct (capitalize_word_ok word Hw) as [r Hr].
  exists (r :: rs). simpl. rewrite Hr. simpl. rewrite IH. done.
Qed.

Lemma split_all_space text :
  all_space text = true -> split text = [].
Proof.
  unfold all_space, split. induction text as [|c text IH]; simpl; [done|].
  intros [Hc Ht]%andb_prop. rewrite Hc. simpl. auto.
Qed.

(** C10: [title_case] returns on every string: the words of [text.split()]
    are non-empty, so [word[0]] never raises; on an empty or all-whitespace
    text the result is the empty string, which [or UNKNOWN] turns into the
    unknown marker in the report. *)
Theorem title_case_total (text : string) :
  exists r, title_case text = Ok r /\
    (all_space text = true -> r = EmptyString /\ or_unknown r = UNKNOWN).
Proof.
  unfold title_case.
  destruct (mapM_capitalize_ok _ (split_nonempty text)) as [rs Hrs].
  exists (join rs). rewrite Hrs. split; [done|].
  intros Hs. rewrite (split_all_space _ Hs) in Hrs.
  simpl in Hrs. injection Hrs as <-. done.
Qed.

Lemma title_case_total_witness :
  all_space "  " = true /\
  exists r, title_case "  " = Ok r /\
    (all_space "  " = true -> r = EmptyString /\ or_unknown r = UNKNOWN).
Proof. split; [reflexivity | apply (title_case_total "  ")]. Defined.

Lemma title_case_ok text : exists r, title_case text = Ok r.
Proof.
  unfold title_case.
  destruct (mapM_capitalize_ok _ (split_nonempty text)) as [rs ->].
  by eexists.
Qed.

Lemma title_case_all_space text :
  all_space text = true -> title_case text = Ok EmptyString.
Proof.
  intros Hs. unfold title_case. by rewrite (split_all_space _ Hs).
Qed.

(** In a row of the report, a scientific or common name that is empty or
    all whitespace is shown as the unknown marker. *)
Lemma row_values_unknown dates i taxon_id info row cn sn :
  TaxonInfo.common_name info = Some cn -> all_space cn = true ->
  TaxonInfo.name info = Some sn -> all_space sn = true ->
  row_values dates i (taxon_id, info) = Ok row ->
  row !! 2%nat = Some UNKNOWN /\ row !! 3%nat = Some UNKNOWN.
Proof.
  intros Hcn Hcs Hsn Hss. unfold row_values. rewrite Hcn, Hsn. simpl.
  rewrite (title_case_all_space cn Hcs), (title_case_all_space sn Hss).
  destruct (od_index dates taxon_id); simpl; [|done].
  destruct (title_case_value (TaxonInfo.rank info)); simpl; [|done].
  by intros [= <-].
Qed.

(** ** The example of the specification *)

(** C5: on the two observations of the example the reduction leaves one
    leaf entry, taxon 2, first observed on 2023-01-05, and its row shows the
    scientific name "Foo Bar". *)
Theorem example_two_observations :
  exists r info,
    reduce ex_obs = Ok r /\
    sorted_leaf_taxon_id_info_tuples r = [(2, info)] /\
    final_leaf_taxon_id_to_info r = [(2, info)] /\
    TaxonInfo.id info = 2 /\
    od_get (final_dates r) 2 = Some "2023-01-05" /\
    report ex_obs =
      Ok (Some [column_names;
                ["1"; "2023-01-05"; "<Unknown>"; "Foo Bar"; "Species";
                 "https://www.inaturalist.org/taxa/2"]]).
Proof.
  eexists _, _. split; [vm_compute; reflexivity|].
  repeat split; vm_compute; reflexivity.
Qed.

(** ** Ordered dictionaries *)

Section odict_facts.
Context {V : Type}.
Implicit Types (d : list (Z * V)) (k : Z) (v : V).

Lemma od_get_set_eq d k v : od_get (od_set d k v) k = Some v.
Proof.
  induction d as [|[k' v'] d IH]; simpl.
  - by rewrite Z.eqb_refl.
  - destruct (Z.eqb k k') eqn:E; simpl; [by rewrite Z.eqb_refl|].
    by rewrite E.
Qed.

Lemma od_get_set_ne d k k' v :
  k <> k' -> od_get (od_set d k v) k' = od_get d k'.
Proof.
  intros Hne. induction d as [|[k0 v0] d IH]; simpl.
  - destruct (Z.eqb_spec k' k); [congruence|done].
  - destruct (Z.eqb_spec k k0) as [->|]; simpl.
    + destruct (Z.eqb_spec k' k0); [congruence|done].
    + by rewrite IH.
Qed.

Lemma od_get_Some_elem d k v : od_get d k = Some v -> (k, v) ∈ d.
Proof.
  induction d as [|[k' v'] d IH]; simpl; [done|].
  destruct (Z.eqb_spec k k') as [->|].
  - intros [= ->]. left.
  - intros H. right. auto.
Qed.

Lemma od_get_None d k : od_get d k = None <-> k ∉ od_keys d.
Proof.
  unfold od_keys. induction d as [|[k' v'] d IH]; simpl.
  - split; [intros _; apply not_elem_of_nil|done].
  - rewrite not_elem_of_cons. simpl.
    destruct (Z.eqb_spec k k'); [split; [done|tauto]|].
    rewrite IH. tauto.
Qed.

Lemma od_get_is_Some d k : is_Some (od_get d k) <-> k ∈ od_keys d.
Proof.
  rewrite <- not_eq_None_Some, od_get_None.
  destruct (decide (k ∈ od_keys d)); tauto.
Qed.

Lemma od_elem_get d k v :
  NoDup (od_keys d) -> (k, v) ∈ d -> od_get d k = Some v.
Proof.
  unfold od_keys. induction d as [|[k' v'] d IH]; simpl.
  - intros _ H. by apply elem_of_nil in H.
  - intros [Hk Hd]%NoDup_cons [[= -> ->]|Hin]%elem_of_cons.
    + by rewrite Z.eqb_refl.
    + destruct (Z.eqb_spec k k') as [->|]; [|auto].
      exfalso. apply Hk. apply list_elem_of_fmap. by exists (k', v).
Qed.

Lemma od_keys_set_elem d k v k' :
  k' ∈ od_keys (od_set d k v) <-> k' = k \/ k' ∈ od_keys d.
Proof.
  unfold od_keys. induction d as [|[k0 v0] d IH]; simpl.
  - rewrite list_elem_of_singleton. rewrite elem_of_nil. tauto.
  - destruct (Z.eqb_spec k k0) as [->|]; simpl; rewrite !elem_of_cons.
    + tauto.
    + rewrite IH. tauto.
Qed.

Lemma od_set_NoDup d k v :
  NoDup (od_keys d) -> NoDup (od_keys (od_set d k v)).
Proof.
  induction d as [|[k0 v0] d IH]; simpl.
  - intros _. apply NoDup_singleton.
  - intros [Hk Hd]%NoDup_cons. destruct (Z.eqb_spec k k0) as [->|]; simpl.
    + by apply NoDup_cons.
    + apply NoDup_cons. split; [|by apply IH].
      change (k0 ∉ od_keys (od_set d k v)).
      rewrite od_keys_set_elem. intros [?|?]; [congruence|done].
Qed.

End odict_facts.

Lemma foldM_snoc {A S : Type} (f : S -> A -> result S) l a s :
  foldM f (l ++ [a]) s = (s' ← foldM f l s; f s' a).
Proof.
  revert s. induction l as [|b l IH]; intros s; simpl.
  - by destruct (f s a).
  - destruct (f s b); simpl; [apply IH|done].
Qed.

(** ** The taxon map *)

Lemma build_tables_snoc obs o :
  build_tables (obs ++ [o]) = record_observation (build_tables obs) o.
Proof. apply foldl_snoc. Qed.

Lemma infos_NoDup obs : NoDup (od_keys (taxon_id_to_info (build_tables obs))).
Proof.
  induction obs as [|o obs IH] using rev_ind; [apply NoDup_nil_2|].
  rewrite build_tables_snoc. unfold record_observation.
  destruct (Observation.taxon o) as [taxon|]; [|done].
  destruct (truthy_str _); simpl; by apply od_set_NoDup.
Qed.

Lemma infos_id obs k info :
  od_get (taxon_id_to_info (build_tables obs)) k = Some info ->
  TaxonInfo.id info = k.
Proof.
  revert k info. induction obs as [|o obs IH] using rev_ind; [done|].
  intros k info. rewrite build_tables_snoc. unfold record_observation.
  destruct (Observation.taxon o) as [taxon|]; [|apply IH].
  assert (forall d : odict TaxonInfo.t,
    (forall k info, od_get d k = Some info -> TaxonInfo.id info = k) ->
    forall i, TaxonInfo.id i = Taxon.id taxon ->
    od_get (od_set d (Taxon.id taxon) i) k = Some info ->
    TaxonInfo.id info = k) as Hset.
  { intros d Hd i Hi. destruct (decide (Taxon.id taxon = k)) as [<-|Hne].
    - rewrite od_get_set_eq. by intros [= <-].
    - rewrite od_get_set_ne by done. apply Hd. }
  destruct (truthy_str _); simpl; by apply Hset.
Qed.

(** An id is in the set of ancestors exactly when a stored ancestor list
    holds it. *)
Lemma elem_of_collect_ancestor_ids infos a :
  a ∈ collect_ancestor_ids infos <->
  exists k info, (k, info) ∈ infos /\ a ∈ TaxonInfo.ancestor_ids info.
Proof.
  unfold collect_ancestor_ids.
  induction infos as [|[k0 i0] infos IH] using rev_ind.
  - simpl. split; [set_solver|]. intros (k & info & H & _).
    by apply elem_of_nil in H.
  - rewrite foldl_snoc, elem_of_union, IH, elem_of_list_to_set. simpl.
    split.
    + intros [(k & info & Hin & Ha)|Ha].
      * exists k, info. split; [|done]. apply elem_of_app. by left.
      * exists k0, i0. split; [|done]. apply elem_of_app. right. left.
    + intros (k & info & [Hin|Hin]%elem_of_app & Ha).
      * left. eauto.
      * apply list_elem_of_singleton in Hin as [= -> ->]. by right.
Qed.

Lemma elem_of_leaf_taxa infos k info :
  (k, info) ∈ leaf_taxa infos <->
  (k, info) ∈ infos /\ k ∉ collect_ancestor_ids infos.
Proof. unfold leaf_taxa. rewrite list_elem_of_filter. simpl. tauto. Qed.

Lemma leaf_taxa_NoDup infos :
  NoDup (od_keys infos) -> NoDup (od_keys (leaf_taxa infos)).
Proof.
  unfold od_keys, leaf_taxa. generalize (collect_ancestor_ids infos) as S.
  intros S. induction infos as [|[k i] infos IH]; [done|].
  rewrite fmap_cons. intros [Hk Hd]%NoDup_cons. rewrite filter_cons. simpl.
  destruct (decide (k ∉ S)); [|auto].
  rewrite fmap_cons. apply NoDup_cons. split; [|auto]. simpl.
  intros (x & Hx & [_ Hin]%list_elem_of_filter)%list_elem_of_fmap.
  apply Hk. apply list_elem_of_fmap. eauto.
Qed.
(** ** The collapse *)

Lemma foldM_ind {A S : Type} (f : S -> A -> result S) (G : A -> Prop)
  (I : list A -> S -> Prop) (s0 : S) :
  I [] s0 ->
  (forall P a s s', G a -> I P s -> f s a = Ok s' -> I (P ++ [a]) s') ->
  forall l s', Forall G l -> foldM f l s0 = Ok s' -> I l s'.
Proof.
  intros H0 Hstep l. induction l as [|a l IH] using rev_ind; intros s' HG.
  - by intros [= <-].
  - apply Forall_app in HG as [HGl [HGa _]%Forall_cons].
    rewrite foldM_snoc. destruct (foldM f l s0) as [s|e] eqn:E; [|done].
    simpl. intros Hf. apply (Hstep l a s s'); [done | by apply IH | done].
Qed.

Lemma foldM_total {A S : Type} (f : S -> A -> result S) (G : A -> Prop) :
  (forall s a, G a -> exists s', f s a = Ok s') ->
  forall l s, Forall G l -> exists s', foldM f l s = Ok s'.
Proof.
  intros Hf l. induction l as [|a l IH]; intros s HG; [by eexists|].
  apply Forall_cons in HG as [Ha Hl].
  destruct (Hf s a Ha) as [s1 H1]. simpl. rewrite H1. simpl. by apply IH.
Qed.

Lemma find_species_Some infos l s :
  find_species infos l = Some s ->
  s ∈ l /\ exists anc,
    od_get infos s = Some anc /\ TaxonInfo.rank anc = Some "species".
Proof.
  induction l as [|a l IH]; simpl; [done|].
  destruct (od_get infos a) as [anc|] eqn:Ha.
  - case_bool_decide as Hr.
    + intros [= <-]. split; [left|eauto].
    + intros [? ?]%IH. split; [by right|done].
  - intros [? ?]%IH. split; [by right|done].
Qed.

Lemma find_species_exists infos l a anc :
  a ∈ l -> od_get infos a = Some anc ->
  TaxonInfo.rank anc = Some "species" ->
  exists s, find_species infos l = Some s.
Proof.
  induction l as [|b l IH]; simpl; [by intros ?%elem_of_nil|].
  intros [->|Hin]%elem_of_cons Ha Hr.
  - rewrite Ha. rewrite bool_decide_eq_true_2 by done. eauto.
  - destruct (od_get infos b); [case_bool_decide|]; eauto.
Qed.

Lemma species_id_of_Some infos info s :
  species_id_of infos info = Some s ->
  lower (default EmptyString (TaxonInfo.rank info)) ∈ INFRARANKS /\
  s ∈ TaxonInfo.ancestor_ids info /\
  exists anc, od_get infos s = Some anc /\ TaxonInfo.rank anc = Some "species".
Proof.
  unfold species_id_of. cbv zeta.
  destruct (bool_decide _) eqn:Hr; [|done].
  apply bool_decide_eq_true in Hr.
  intros [Hin Hs]%find_species_Some. split; [done|]. split; [|done].
  by rewrite elem_of_reverse in Hin.
Qed.

Lemma collapse_target_Some infos info s :
  collapse_target infos info = Some s <->
  species_id_of infos info = Some s /\ s <> 0.
Proof.
  unfold collapse_target, truthy_int.
  destruct (species_id_of infos info) as [[| |]|]; split; try done;
    try (intros [= <-]); try (intros [[= <-] ?]); done.
Qed.

Lemma collapse_step_target infos st t info s :
  (forall k i, od_get infos k = Some i -> TaxonInfo.id i = k) ->
  collapse_target infos info = Some s ->
  exists parent, od_get infos s = Some parent /\
    collapse_step infos st (t, info) =
      Ok (mk_collapse
            (od_set (collapsed_taxon_id_to_info st) s parent)
            (od_set (dates_first_observed st) s
               (min_str (od_get_default (dates_first_observed st) s SENTINEL)
                        (od_get_default (dates_first_observed st) t SENTINEL)))).
Proof.
  intros Hid Ht. pose proof Ht as [Hs _]%collapse_target_Some.
  apply species_id_of_Some in Hs as (_ & _ & parent & Hp & _).
  exists parent. split; [done|]. unfold collapse_step.
  rewrite Ht. unfold od_index.
  rewrite Hp. simpl. by rewrite (Hid _ _ Hp).
Qed.

Lemma collapse_step_keep infos st t info :
  collapse_target infos info = None ->
  collapse_step infos st (t, info) =
    Ok (mk_collapse (od_set (collapsed_taxon_id_to_info st) t info)
                    (dates_first_observed st)).
Proof.
  intros Ht. unfold collapse_step. by rewrite Ht.
Qed.

Lemma collapse_step_ok infos st item :
  (forall k i, od_get infos k = Some i -> TaxonInfo.id i = k) ->
  exists st', collapse_step infos st item = Ok st'.
Proof.
  intros Hid. destruct item as [t info].
  destruct (collapse_target infos info) as [s|] eqn:Ht.
  - destruct (collapse_step_target infos st t info s Hid Ht) as (p & _ & ->).
    by eexists.
  - rewrite collapse_step_keep by done. by eexists.
Qed.

Section collapse_facts.
Variable infos : odict TaxonInfo.t.
Variable dates0 : odict string.
Hypothesis Hid : forall k i, od_get infos k = Some i -> TaxonInfo.id i = k.

Lemma collapse_keys P st :
  Forall (fun item => od_get infos item.1 = Some item.2) P ->
  foldM (collapse_step infos) P (mk_collapse [] dates0) = Ok st ->
  NoDup (od_keys (collapsed_taxon_id_to_info st)) /\
  (forall k, k ∈ od_keys (collapsed_taxon_id_to_info st) <->
     exists item, item ∈ P /\
       (collapse_target infos item.2 = Some k \/
        (collapse_target infos item.2 = None /\ k = item.1))) /\
  (forall k v, od_get (collapsed_taxon_id_to_info st) k = Some v ->
     od_get infos k = Some v).
Proof.
  revert P st. apply foldM_ind.
  - simpl. split; [apply NoDup_nil_2|]. split; [|done].
    intros k. split; [by intros ?%elem_of_nil|].
    by intros (item & ?%elem_of_nil & _).
  - intros P [t info] st st' Hg (Hnd & Hkeys & Hvals) Hstep. simpl in Hg.
    destruct (collapse_target infos info) as [s|] eqn:Ht.
    + destruct (collapse_step_target infos st t info s Hid Ht)
        as (parent & Hp & Hstep').
      rewrite Hstep' in Hstep. injection Hstep as <-. simpl.
      split; [by apply od_set_NoDup|]. split.
      * intros k. rewrite od_keys_set_elem, Hkeys. split.
        -- intros [->|(item & Hin & Hc)].
           ++ exists (t, info). split; [apply elem_of_app; right; left|].
              by left.
           ++ exists item. split; [apply elem_of_app; by left|done].
        -- intros (item & [Hin|Hin]%elem_of_app & Hc).
           ++ right. eauto.
           ++ apply list_elem_of_singleton in Hin as ->. simpl in Hc.
              rewrite Ht in Hc. destruct Hc as [[= ->]|[? _]]; [by left|done].
      * intros k v. destruct (decide (s = k)) as [<-|Hne].
        -- rewrite od_get_set_eq. by intros [= <-].
        -- rewrite od_get_set_ne by done. apply Hvals.
    + rewrite collapse_step_keep in Hstep by done. injection Hstep as <-.
      simpl. split; [by apply od_set_NoDup|]. split.
      * intros k. rewrite od_keys_set_elem, Hkeys. split.
        -- intros [->|(item & Hin & Hc)].
           ++ exists (t, info). split; [apply elem_of_app; right; left|].
              by right.
           ++ exists item. split; [apply elem_of_app; by left|done].
        -- intros (item & [Hin|Hin]%elem_of_app & Hc).
           ++ right. eauto.
           ++ apply list_elem_of_singleton in Hin as ->. simpl in Hc.
              rewrite Ht in Hc. destruct Hc as [[=]|[_ ->]]. by left.
      * intros k v. destruct (decide (t = k)) as [<-|Hne].
        -- rewrite od_get_set_eq. by intros [= <-].
        -- rewrite od_get_set_ne by done. apply Hvals.
Qed.

End collapse_facts.

Lemma leaf_taxa_get infos :
  NoDup (od_keys infos) ->
  Forall (fun item => od_get infos item.1 = Some item.2) (leaf_taxa infos).
Proof.
  intros Hnd. apply Forall_forall. intros [t info] Hin.
  apply elem_of_leaf_taxa in Hin as [Hin _]. simpl. by apply od_elem_get.
Qed.

(** The reduction never raises: a species found by the search is a key of
    the taxon map. *)
Lemma reduce_total observations : exists r, reduce observations = Ok r.
Proof.
  unfold reduce.
  destruct (foldM_total (collapse_step (taxon_id_to_info (build_tables observations)))
              (fun _ => True)) with
    (l := leaf_taxa (taxon_id_to_info (build_tables observations)))
    (s := mk_collapse [] (taxon_id_to_date_first_observed (build_tables observations)))
    as [st Hst].
  - intros s a _. apply collapse_step_ok. apply infos_id.
  - by apply Forall_forall.
  - rewrite Hst. by eexists.
Qed.

Lemma reduce_Ok observations r :
  reduce observations = Ok r ->
  let infos := taxon_id_to_info (build_tables observations) in
  exists st,
    foldM (collapse_step infos) (leaf_taxa infos)
      (mk_collapse [] (taxon_id_to_date_first_observed (build_tables observations)))
      = Ok st /\
    r = mk_reduction infos (leaf_taxa infos)
          (collapsed_taxon_id_to_info st) (dates_first_observed st)
          (sorted_by (sort_key (dates_first_observed st))
             (collapsed_taxon_id_to_info st)).
Proof.
  unfold reduce. intros H. cbv zeta.
  destruct (foldM _ _ _) as [st|e]; [|done].
  exists st. split; [done|]. simpl in H. by injection H as <-.
Qed.

(** ** Leaves and ancestors *)

(** C2, as stated, fails on the example of the specification: taxon 2 is
    in the final leaf set and in the ancestor list of taxon 10. *)
Lemma final_ids_are_never_ancestors_counterexample :
  ~ final_ids_are_never_ancestors ex_obs.
Proof.
  intros H. destruct (reduce_total ex_obs) as [r Hr].
  pose proof (H r Hr 2) as H2.
  vm_compute in Hr. injection Hr as <-.
  apply (H2 ltac:(left) 10
           (TaxonInfo.mk 10 (Some "subspecies") [1; 2] (Some "Foo bar baz")
              (Some EmptyString))).
  - left.
  - done.
  - right. left.
Qed.

(** C2, amended: an id of the final leaf set is in no stored ancestor list,
    or it is a taxon of rank "species" that an infra-ranked leaf candidate
    lists as an ancestor (the candidate was collapsed into it). *)
Theorem final_ids_leaf_or_collapsed_species (observations : list Observation.t) :
  exists r, reduce observations = Ok r /\
  forall k, k ∈ od_keys (final_leaf_taxon_id_to_info r) ->
    (forall k' info', (k', info') ∈ infos_of r ->
       k ∉ TaxonInfo.ancestor_ids info') \/
    (exists t info anc,
       (t, info) ∈ leaves_of r /\
       lower (default EmptyString (TaxonInfo.rank info)) ∈ INFRARANKS /\
       k ∈ TaxonInfo.ancestor_ids info /\
       od_get (infos_of r) k = Some anc /\
       TaxonInfo.rank anc = Some "species").
Proof.
  destruct (reduce_total observations) as [r Hr]. exists r. split; [done|].
  apply reduce_Ok in Hr as (st & Hst & ->). simpl.
  set (infos := taxon_id_to_info (build_tables observations)) in *.
  pose proof (infos_NoDup observations) as Hnd. fold infos in Hnd.
  apply collapse_keys in Hst as (_ & Hkeys & _);
    [|apply infos_id|by apply leaf_taxa_get].
  intros k [[t info] [Hin Hc]]%Hkeys. simpl in Hc.
  destruct Hc as [Hc|[_ ->]].
  - right. apply collapse_target_Some in Hc as [Hs _].
    apply species_id_of_Some in Hs as (Hr & Ha & anc & Hanc & Hrank).
    exists t, info, anc. done.
  - left. apply elem_of_leaf_taxa in Hin as [_ Hleaf].
    intros k' info' Hin' Ha. apply Hleaf.
    apply elem_of_collect_ancestor_ids. eauto.
Qed.

Lemma final_ids_leaf_or_collapsed_species_witness :
  exists r, reduce ex_obs = Ok r /\
    2 ∈ od_keys (final_leaf_taxon_id_to_info r) /\
    ((forall k' info', (k', info') ∈ infos_of r ->
       2 ∉ TaxonInfo.ancestor_ids info') \/
     (exists t info anc,
       (t, info) ∈ leaves_of r /\
       lower (default EmptyString (TaxonInfo.rank info)) ∈ INFRARANKS /\
       2 ∈ TaxonInfo.ancestor_ids info /\
       od_get (infos_of r) 2 = Some anc /\
       TaxonInfo.rank anc = Some "species")).
Proof.
  destruct (final_ids_leaf_or_collapsed_species ex_obs) as (r & Hr & H).
  exists r. split; [exact Hr|].
  assert (2 ∈ od_keys (final_leaf_taxon_id_to_info r)) as Hin.
  { vm_compute in Hr. injection Hr as <-. vm_compute. left. }
  split; [exact Hin | exact (H 2 Hin)].
Defined.

(** ** Collapsing to species *)

Lemma filter_key_absent {V : Type} (d : list (Z * V)) k :
  k ∉ od_keys d -> filter (fun kv => kv.1 = k) d = [].
Proof.
  unfold od_keys. induction d as [|[k0 v0] d IH]; [done|].
  rewrite fmap_cons, not_elem_of_cons, filter_cons. simpl.
  intros [Hne Hk]. destruct (decide (k0 = k)); [congruence|auto].
Qed.

Lemma filter_key_once {V : Type} (d : list (Z * V)) k :
  NoDup (od_keys d) -> k ∈ od_keys d ->
  length (filter (fun kv => kv.1 = k) d) = 1%nat.
Proof.
  unfold od_keys. induction d as [|[k0 v0] d IH]; [by intros _ ?%elem_of_nil|].
  rewrite fmap_cons. intros [Hk Hd]%NoDup_cons Hin. rewrite filter_cons.
  simpl in *. destruct (decide (k0 = k)) as [->|Hne].
  - by rewrite filter_key_absent.
  - apply elem_of_cons in Hin as [?|Hin]; [congruence|auto].
Qed.

(** X10: an infra-ranked leaf candidate whose nearest species ancestor in
    the taxon map has a non-zero id is replaced by that species: the species
    is in the output once, with its own entry of the taxon map, and the
    candidate is not. *)
Lemma collapse_to_species (observations : list Observation.t) t info s :
  exists r, reduce observations = Ok r /\
  ((t, info) ∈ leaves_of r ->
   species_id_of (infos_of r) info = Some s -> s <> 0 ->
   length (filter (fun kv => kv.1 = s) (final_leaf_taxon_id_to_info r)) = 1%nat /\
   (t ∉ od_keys (final_leaf_taxon_id_to_info r)) /\
   exists anc, od_get (final_leaf_taxon_id_to_info r) s = Some anc /\
     od_get (infos_of r) s = Some anc /\
     TaxonInfo.rank anc = Some "species" /\ TaxonInfo.id anc = s).
Proof.
  destruct (reduce_total observations) as [r Hr]. exists r. split; [done|].
  apply reduce_Ok in Hr as (st & Hst & ->). simpl.
  set (infos := taxon_id_to_info (build_tables observations)) in *.
  pose proof (infos_NoDup observations) as Hnd. fold infos in Hnd.
  assert (forall k i, od_get infos k = Some i -> TaxonInfo.id i = k) as Hid
    by apply infos_id.
  apply collapse_keys in Hst as (Hnd' & Hkeys & Hvals);
    [|done|by apply leaf_taxa_get].
  intros Hleaf Hs Hs0.
  assert (collapse_target infos info = Some s) as Ht
    by by apply collapse_target_Some.
  assert (s ∈ od_keys (collapsed_taxon_id_to_info st)) as Hin.
  { apply Hkeys. exists (t, info). split; [done|by left]. }
  split; [by apply filter_key_once|]. split.
  - intros [[t' info'] [Hin' Hc]]%Hkeys. simpl in Hc.
    apply elem_of_leaf_taxa in Hleaf as [Hti Hnot].
    destruct Hc as [Hc|[Hc ->]].
    + apply collapse_target_Some in Hc as [Hc _].
      apply species_id_of_Some in Hc as (_ & Ha & _).
      apply elem_of_leaf_taxa in Hin' as [Hin' _].
      apply Hnot. apply elem_of_collect_ancestor_ids. eauto.
    + apply elem_of_leaf_taxa in Hin' as [Hin' _].
      apply (od_elem_get _ _ _ Hnd) in Hin'.
      apply (od_elem_get _ _ _ Hnd) in Hti.
      congruence.
  - apply od_get_is_Some in Hin as [anc Hanc]. exists anc.
    pose proof (Hvals _ _ Hanc) as Hanc'.
    apply species_id_of_Some in Hs as (_ & _ & anc' & Ha' & Hrank).
    assert (anc' = anc) as -> by congruence. eauto.
Qed.

(** C6 at a species whose id is 0: the search finds the species
    ([species_id = 0]), the test [if species_id:] takes it for "not found",
    and the output is the subspecies, not the species. *)
Theorem species_with_id_zero_not_collapsed :
  exists r info,
    reduce zero_id_obs = Ok r /\
    leaves_of r = [(10, info)] /\
    TaxonInfo.rank info = Some "subspecies" /\
    species_id_of (infos_of r) info = Some 0 /\
    od_keys (final_leaf_taxon_id_to_info r) = [10].
Proof.
  eexists _, _. split; [vm_compute; reflexivity|].
  repeat split; vm_compute; reflexivity.
Qed.

(** ** Sorting and the rows of the report *)

Section sorting_facts.
Context {A : Type} (key : A -> string).

Lemma insert_by_perm x l : insert_by key x l ≡ₚ x :: l.
Proof.
  induction l as [|y l IH]; simpl; [done|].
  destruct (String.leb (key x) (key y)); [done|].
  rewrite IH. apply Permutation_swap.
Qed.

Lemma sorted_by_perm l : sorted_by key l ≡ₚ l.
Proof.
  induction l as [|x l IH]; simpl; [done|].
  unfold sorted_by in *. simpl. rewrite insert_by_perm. by rewrite IH.
Qed.

Lemma elem_of_sorted_by x l : x ∈ sorted_by key l <-> x ∈ l.
Proof. by rewrite sorted_by_perm. Qed.

Lemma insert_by_sorted x l :
  Sorted (fun a b => String.leb (key a) (key b) = true) l ->
  Sorted (fun a b => String.leb (key a) (key b) = true) (insert_by key x l).
Proof.
  induction 1 as [|y l Hl IH Hy]; simpl.
  - by repeat constructor.
  - destruct (String.leb (key x) (key y)) eqn:E.
    + by repeat constructor.
    + constructor; [done|].
      assert (String.leb (key y) (key x) = true) as Hyx
        by (destruct (String.leb_total (key x) (key y)); congruence).
      destruct Hy as [|z l Hz]; simpl; [by constructor|].
      destruct (String.leb (key x) (key z)); by constructor.
Qed.

(** The sorted list is in non-decreasing order of the keys. *)
Lemma sorted_by_sorted l :
  Sorted (fun a b => String.leb (key a) (key b) = true) (sorted_by key l).
Proof.
  induction l as [|x l IH]; [constructor|]. by apply insert_by_sorted.
Qed.

End sorting_facts.

Lemma rows_from_undated dates items : forall i k,
  k ∈ od_keys items -> od_get dates k = None ->
  exists e, rows_from dates i items = Raise e.
Proof.
  unfold od_keys. induction items as [|[t info] items IH]; intros i k.
  - by intros ?%elem_of_nil.
  - rewrite fmap_cons. simpl. intros [->|Hin]%elem_of_cons Hk.
    + unfold od_index. rewrite Hk. simpl. eauto.
    + destruct (od_index dates t); simpl; [|eauto].
      destruct (title_case_value (TaxonInfo.common_name info)); simpl; [|eauto].
      destruct (title_case_value (TaxonInfo.name info)); simpl; [|eauto].
      destruct (title_case_value (TaxonInfo.rank info)); simpl; [|eauto].
      destruct (IH (i + 1) k Hin Hk) as [e ->]. simpl. eauto.
Qed.

(** Whenever a taxon of the final leaf set has no recorded date, writing
    the report raises: line 167 indexes the date map without a default. *)
Lemma report_undated_raises r k :
  k ∈ od_keys (final_leaf_taxon_id_to_info r) ->
  sorted_leaf_taxon_id_info_tuples r ≡ₚ final_leaf_taxon_id_to_info r ->
  od_get (final_dates r) k = None ->
  exists e, write_report r = Raise e.
Proof.
  intros Hin Hperm Hk. unfold write_report.
  destruct (final_leaf_taxon_id_to_info r) as [|item final] eqn:Hf.
  { by apply elem_of_nil in Hin. }
  destruct (rows_from_undated (final_dates r)
              (sorted_leaf_taxon_id_info_tuples r) 1 k) as [e ->]; [|done|].
  - unfold od_keys in *. by rewrite Hperm.
  - simpl. eauto.
Qed.

(** C1 at an observation without [observed_on]: taxon 5 is in the final
    leaf set, it has no recorded date, the sort (which reads the date map
    with the sentinel as default) puts it after the dated taxon 7, and the
    report raises [KeyError] on its row. *)
Theorem undated_leaf_raises_KeyError :
  exists r,
    reduce undated_obs = Ok r /\
    od_keys (final_leaf_taxon_id_to_info r) = [5; 7] /\
    od_get (final_dates r) 5 = None /\
    od_keys (sorted_leaf_taxon_id_info_tuples r) = [7; 5] /\
    report undated_obs = Raise KeyError.
Proof.
  eexists. split; [vm_compute; reflexivity|].
  repeat split; vm_compute; reflexivity.
Qed.

(** ** First-observed dates *)

Lemma is_least_singleton d : is_least d [d].
Proof.
  split; [left|]. intros ? ->%list_elem_of_singleton. apply leb_refl.
Qed.

Lemma is_least_min_app a A b B :
  is_least a A -> is_least b B -> is_least (min_str a b) (A ++ B).
Proof.
  intros [HaA Ha] [HbB Hb].
  destruct (min_str_cases a b) as [[-> Hab]|[-> Hba]].
  - split; [apply elem_of_app; by left|].
    intros d [?|?]%elem_of_app; [auto|]. eapply leb_trans; eauto.
  - split; [apply elem_of_app; by right|].
    intros d [?|?]%elem_of_app; [|auto]. eapply leb_trans; eauto.
Qed.

Lemma is_least_equiv m L L' :
  is_least m L -> (forall d, d ∈ L <-> d ∈ L') -> is_least m L'.
Proof.
  intros [Hm Hle] Heq. split; [by apply Heq|].
  intros d Hd. apply Hle. by apply Heq.
Qed.

Lemma leb_cons_digit c s s' :
  is_digit c = true -> String.leb s s' = true ->
  String.leb (String c s) (String "9" s') = true.
Proof.
  unfold is_digit, String.leb, code. simpl. unfold Ascii.compare.
  intros [H1 H2]%andb_prop. apply N.leb_le in H2.
  change (N_of_ascii "9") with 57%N.
  destruct (N.compare_spec (N_of_ascii c) 57) as [Heq|Hlt|Hgt];
    [done|done|lia].
Qed.

Lemma leb_cons_same c s s' :
  String.leb s s' = true -> String.leb (String c s) (String c s') = true.
Proof.
  unfold String.leb. simpl. unfold Ascii.compare. by rewrite N.compare_refl.
Qed.

(** Every date written "YYYY-MM-DD" is at most the sentinel. *)
Lemma iso_date_le_sentinel d :
  iso_date d = true -> String.leb d SENTINEL = true.
Proof.
  unfold iso_date.
  do 10 (destruct d as [|? d]; [done|]). destruct d; [|done].
  cbn [list_ascii_of_string forallb].
  rewrite !andb_true_iff, !Ascii.eqb_eq.
  intros [[(?&?&?&?&?&?&?&?&_) ->] ->]. unfold SENTINEL.
  do 4 (apply leb_cons_digit; [done|]). apply leb_cons_same.
  do 2 (apply leb_cons_digit; [done|]). apply leb_cons_same.
  do 2 (apply leb_cons_digit; [done|]). done.
Qed.

Lemma iso_dated_well_dated o :
  (forall d, Observation.observed_on o = Some d -> iso_date d = true) ->
  well_dated o = true.
Proof.
  intros H. unfold well_dated, truthy_str.
  destruct (Observation.observed_on o) as [[|c d]|]; try done.
  by apply iso_date_le_sentinel, H.
Qed.

Lemma dates_of_app ids obs1 obs2 :
  dates_of ids (obs1 ++ obs2) = dates_of ids obs1 ++ dates_of ids obs2.
Proof. apply omap_app. Qed.

Lemma elem_of_dates_of ids obs d :
  d ∈ dates_of ids obs <->
  exists o taxon, o ∈ obs /\ Observation.taxon o = Some taxon /\
    Taxon.id taxon ∈ ids /\ truthy_str (Observation.observed_on o) = Some d.
Proof.
  unfold dates_of. rewrite list_elem_of_omap. split.
  - intros (o & Ho & H).
    destruct (Observation.taxon o) as [taxon|] eqn:Ht; [|done].
    case_bool_decide; [|done]. by exists o, taxon.
  - intros (o & taxon & Ho & Ht & Hin & Hd). exists o. split; [done|].
    rewrite Ht. by rewrite bool_decide_eq_true_2.
Qed.

Lemma dates_of_well_dated ids obs d :
  forallb well_dated obs = true -> d ∈ dates_of ids obs ->
  String.leb d SENTINEL = true.
Proof.
  intros Hwd (o & taxon & Ho & _ & _ & Hd)%elem_of_dates_of.
  rewrite forallb_forall in Hwd. apply list_elem_of_In, Hwd in Ho.
  unfold well_dated in Ho. by rewrite Hd in Ho.
Qed.

(** After the first loop the date map holds, for each taxon id, the least
    date of its observations, and no entry when none has a date. *)
Lemma build_dates obs k :
  match od_get (taxon_id_to_date_first_observed (build_tables obs)) k with
  | Some m => is_least m (dates_of [k] obs)
  | None => dates_of [k] obs = []
  end.
Proof.
  induction obs as [|o obs IH] using rev_ind; [done|].
  rewrite build_tables_snoc, dates_of_app. unfold record_observation.
  unfold dates_of at 2 4. simpl.
  destruct (Observation.taxon o) as [taxon|]; simpl.
  2:{ rewrite app_nil_r. apply IH. }
  destruct (truthy_str (Observation.observed_on o)) as [d|] eqn:Hd; simpl.
  2:{ destruct (bool_decide _); simpl; rewrite app_nil_r; apply IH. }
  destruct (decide (Taxon.id taxon = k)) as [->|Hne].
  - rewrite od_get_set_eq.
    rewrite bool_decide_eq_true_2 by (apply list_elem_of_singleton; done).
    simpl. unfold od_mem, od_get_default.
    destruct (od_get _ k) as [m|].
    + apply is_least_min_app; [done|apply is_least_singleton].
    + rewrite IH. apply is_least_singleton.
  - rewrite od_get_set_ne by done.
    rewrite bool_decide_eq_false_2
      by (rewrite list_elem_of_singleton; done).
    simpl. rewrite app_nil_r. apply IH.
Qed.

Lemma filter_nil_forall {A : Type} (P : A -> Prop) `{forall x, Decision (P x)}
  (l : list A) :
  (forall x, x ∈ l -> ~ P x) -> filter P l = [].
Proof.
  intros Hl. destruct (filter P l) as [|x l'] eqn:E; [done|].
  assert (x ∈ filter P l) as [Hx Hin]%list_elem_of_filter
    by (rewrite E; left).
  by destruct (Hl x Hin).
Qed.

Section collapse_dates.
Variable infos : odict TaxonInfo.t.
Variable dates0 : odict string.
Hypothesis Hid : forall k i, od_get infos k = Some i -> TaxonInfo.id i = k.
Hypothesis Hle : forall k d, od_get dates0 k = Some d ->
  String.leb d SENTINEL = true.

Abbreviation children := (collapsed_items infos).
Abbreviation pool := (date_pool infos dates0).

Lemma default_is_least k :
  is_least (od_get_default dates0 k SENTINEL)
           (SENTINEL :: option_list (od_get dates0 k)).
Proof.
  unfold od_get_default. destruct (od_get dates0 k) as [d|] eqn:E; simpl.
  - split; [right; left|].
    intros x [->|Hx]%elem_of_cons; [eauto|].
    apply list_elem_of_singleton in Hx as ->. apply leb_refl.
  - apply is_least_singleton.
Qed.

Lemma collapse_dates P st :
  Forall (fun item => item ∈ leaf_taxa infos) P ->
  foldM (collapse_step infos) P (mk_collapse [] dates0) = Ok st ->
  forall k,
    match children P k with
    | [] => od_get (dates_first_observed st) k = od_get dates0 k
    | _ => exists m, od_get (dates_first_observed st) k = Some m /\
             is_least m (pool P k)
    end.
Proof.
  intros HP Hst.
  cut (Forall (fun item => item ∈ leaf_taxa infos) P /\
       forall k,
         match children P k with
         | [] => od_get (dates_first_observed st) k = od_get dates0 k
         | _ => exists m, od_get (dates_first_observed st) k = Some m /\
                  is_least m (pool P k)
         end); [tauto|].
  revert P st HP Hst. apply foldM_ind; [done|].
  intros P [t info] st st' Hg [HP Hinv] Hstep.
  split; [apply Forall_app; split; [done|by apply Forall_singleton]|].
  intros k. unfold date_pool, collapsed_items.
  rewrite filter_app, filter_cons, filter_nil.
  simpl. fold (children P k).
  destruct (collapse_target infos info) as [s|] eqn:Ht.
  - destruct (collapse_step_target infos st t info s Hid Ht)
      as (parent & Hp & Hstep').
    rewrite Hstep' in Hstep. injection Hstep as <-. simpl.
    assert (od_get (dates_first_observed st) t = od_get dates0 t) as Hdt.
    { specialize (Hinv t). unfold collapsed_items in Hinv.
      rewrite (filter_nil_forall _ P) in Hinv; [done|].
      intros [t' info'] Hin' Hc. simpl in Hc.
      apply collapse_target_Some in Hc as [Hc _].
      apply species_id_of_Some in Hc as (_ & Ha & _).
      rewrite Forall_forall in HP. apply HP, elem_of_leaf_taxa in Hin'.
      apply elem_of_leaf_taxa in Hg as [_ Hg]. apply Hg.
      apply elem_of_collect_ancestor_ids. exists t', info'. tauto. }
    destruct (decide (Some s = Some k)) as [[= <-]|Hne].
    + rewrite od_get_set_eq.
      destruct (children P s ++ [(t, info)]) eqn:E;
        [by destruct (children P s)|]. rewrite <- E. clear E.
      eexists. split; [done|].
      assert (is_least (od_get_default (dates_first_observed st) s SENTINEL)
                (pool P s)) as Ha.
      { specialize (Hinv s). unfold date_pool. destruct (children P s) eqn:E.
        - unfold od_get_default. rewrite Hinv. simpl. rewrite app_nil_r.
          apply default_is_least.
        - destruct Hinv as (m & Hm & Hleast). unfold od_get_default.
          rewrite Hm. unfold date_pool in Hleast. by rewrite E in Hleast. }
      assert (od_get_default (dates_first_observed st) t SENTINEL =
              od_get_default dates0 t SENTINEL) as ->
        by (unfold od_get_default; by rewrite Hdt).
      eapply is_least_equiv;
        [apply (is_least_min_app _ _ _ _ Ha (default_is_least t))|].
      intros d. unfold date_pool. rewrite omap_app. simpl.
      destruct (od_get dates0 t); simpl;
        repeat (rewrite elem_of_cons || rewrite elem_of_app
                || rewrite elem_of_nil); tauto.
    + rewrite app_nil_r. rewrite od_get_set_ne by congruence. apply Hinv.
  - rewrite collapse_step_keep in Hstep by done. injection Hstep as <-.
    simpl. destruct (decide (None = Some k)); [done|].
    rewrite app_nil_r. apply Hinv.
Qed.

End collapse_dates.

Lemma dates_of_single ids obs d :
  d ∈ dates_of ids obs <-> exists k, k ∈ ids /\ d ∈ dates_of [k] obs.
Proof.
  rewrite elem_of_dates_of. split.
  - intros (o & taxon & Ho & Ht & Hin & Hd). exists (Taxon.id taxon).
    split; [done|]. apply elem_of_dates_of. exists o, taxon.
    repeat split; try done. left.
  - intros (k & Hk & (o & taxon & Ho & Ht & Hin & Hd)%elem_of_dates_of).
    apply list_elem_of_singleton in Hin. subst k. by exists o, taxon.
Qed.

Lemma build_dates_Some obs k d :
  od_get (taxon_id_to_date_first_observed (build_tables obs)) k = Some d ->
  is_least d (dates_of [k] obs).
Proof. intros H. pose proof (build_dates obs k) as Hb. by rewrite H in Hb. Qed.

Lemma build_dates_elem obs k d :
  d ∈ dates_of [k] obs ->
  exists x, od_get (taxon_id_to_date_first_observed (build_tables obs)) k
            = Some x /\ String.leb x d = true.
Proof.
  intros Hd. pose proof (build_dates obs k) as Hb.
  destruct (od_get _ k) as [x|].
  - exists x. split; [done|]. by apply Hb.
  - rewrite Hb in Hd. by apply elem_of_nil in Hd.
Qed.

(** C7: the date recorded for a species that leaf candidates were
    collapsed into is the least of the dates of its own observations and
    of the observations of the candidates collapsed into it.  Observations
    without a date are not among these dates.  The least is taken with the
    sentinel, which is the recorded date when none of these observations
    has a date.  Dates are not above the sentinel, as "YYYY-MM-DD" dates
    are. *)
Theorem collapsed_species_first_date (observations : list Observation.t)
  (s : Z) :
  forallb well_dated observations = true ->
  exists r, reduce observations = Ok r /\
    (collapsed_into r s <> [] ->
     exists m, od_get (final_dates r) s = Some m /\
       is_least m (SENTINEL :: dates_of (s :: collapsed_into r s) observations) /\
       (dates_of (s :: collapsed_into r s) observations <> [] ->
        is_least m (dates_of (s :: collapsed_into r s) observations))).
Proof.
  intros Hwd. destruct (reduce_total observations) as [r Hr].
  exists r. split; [done|].
  apply reduce_Ok in Hr as (st & Hst & ->).
  unfold collapsed_into, collapsed_items. simpl.
  set (infos := taxon_id_to_info (build_tables observations)) in *.
  set (dates0 := taxon_id_to_date_first_observed (build_tables observations))
    in *.
  set (items := filter (fun item => collapse_target infos item.2 = Some s)
                       (leaf_taxa infos)).
  intros Hne.
  assert (forall k d, od_get dates0 k = Some d -> String.leb d SENTINEL = true)
    as Hle.
  { intros k d [Hd _]%build_dates_Some. by eapply dates_of_well_dated. }
  pose proof (collapse_dates infos dates0 (infos_id observations) Hle
                (leaf_taxa infos) st) as Hinv.
  specialize (Hinv ltac:(by apply Forall_forall) Hst s).
  unfold date_pool, collapsed_items in Hinv. fold items in Hinv.
  assert (exists m, od_get (dates_first_observed st) s = Some m /\
            is_least m (SENTINEL :: option_list (od_get dates0 s) ++
                        omap (fun item => od_get dates0 item.1) items))
    as (m & Hm & Hin & Hleast) by by destruct items.
  clear Hinv Hne. exists m. split; [done|].
  assert (forall k, k ∈ s :: items.*1 ->
          forall x, od_get dates0 k = Some x ->
          x ∈ SENTINEL :: option_list (od_get dates0 s) ++
              omap (fun item => od_get dates0 item.1) items) as Hpool.
  { intros k [->|Hk]%elem_of_cons x Hx; right; apply elem_of_app.
    - left. rewrite Hx. left.
    - right. apply list_elem_of_fmap in Hk as (item & -> & Hitem).
      apply list_elem_of_omap. eauto. }
  assert (is_least m (SENTINEL :: dates_of (s :: items.*1) observations))
    as Hmin.
  { split.
    - apply elem_of_cons in Hin as [->|Hin]; [left|right].
      apply dates_of_single.
      apply elem_of_app in Hin as [Hin|Hin].
      + exists s. split; [left|]. apply build_dates_Some. fold dates0.
        destruct (od_get dates0 s) as [x|]; simpl in Hin;
          [|by apply elem_of_nil in Hin].
        apply list_elem_of_singleton in Hin. by subst.
      + apply list_elem_of_omap in Hin as (item & Hitem & Hd).
        exists item.1. split.
        * right. apply list_elem_of_fmap. eauto.
        * by apply build_dates_Some.
    - intros d [->|Hd]%elem_of_cons; [apply Hleast; left|].
      apply dates_of_single in Hd as (k & Hk & Hd).
      apply build_dates_elem in Hd as (x & Hx & Hxd).
      eapply leb_trans; [|exact Hxd]. apply Hleast. by eapply Hpool. }
  split; [done|]. intros HD. destruct Hmin as [Hm1 Hm2].
  split; [|intros d Hd; apply Hm2; by right].
  apply elem_of_cons in Hm1 as [->|]; [|done].
  destruct (dates_of (s :: items.*1) observations) as [|d0 D] eqn:E; [done|].
  assert (d0 ∈ dates_of (s :: items.*1) observations) as Hd0
    by (rewrite E; left).
  rewrite <- E.
  assert (SENTINEL = d0) as ->; [|done].
  apply String.leb_antisym.
  - apply Hm2. right. left.
  - by eapply dates_of_well_dated.
Qed.

Lemma collapsed_species_first_date_witness :
  forallb well_dated ex_obs = true /\
  exists r, reduce ex_obs = Ok r /\
    (collapsed_into r 2 <> [] ->
     exists m, od_get (final_dates r) 2 = Some m /\
       is_least m (SENTINEL :: dates_of (2 :: collapsed_into r 2) ex_obs) /\
       (dates_of (2 :: collapsed_into r 2) ex_obs <> [] ->
        is_least m (dates_of (2 :: collapsed_into r 2) ex_obs))).
Proof.
  split; [reflexivity|].
  apply (collapsed_species_first_date ex_obs 2). reflexivity.
Defined.

(** ** The cache file *)

Lemma load_items_dump observations :
  load_items ((Item <$> observations) ++ [ArrayClose]) = Ok observations.
Proof.
  induction observations as [|o l IH]; [done|].
  rewrite fmap_cons. cbn [app load_items]. by rewrite IH.
Qed.

(** What [json.dump] writes, [json.load] reads back. *)
Lemma json_load_dump observations :
  json_load (json_dump observations) = Ok observations.
Proof. apply load_items_dump. Qed.

Lemma run_writes fp pieces : forall fs : files,
  run_ops (Write fp <$> pieces) fs =
    match pieces with
    | [] => fs
    | _ => <[fp := default [] (fs !! fp) ++ pieces]> fs
    end.
Proof.
  unfold run_ops. induction pieces as [|c pieces IH]; intros fs; [done|].
  simpl. rewrite IH. destruct pieces as [|c' pieces]; [done|].
  rewrite lookup_insert_eq. simpl. rewrite insert_insert_eq.
  by rewrite <- app_assoc.
Qed.

Lemma persist_prefix fp observations (fs : files) k :
  run_ops (take (S k) (persist_ops fp observations)) fs =
    <[fp := take k (json_dump observations)]> fs.
Proof.
  unfold persist_ops.
  change (run_ops (take k (Write fp <$> json_dump observations))
            (<[fp:=[]]> fs) = <[fp := take k (json_dump observations)]> fs).
  rewrite <- fmap_take, run_writes.
  destruct (take k (json_dump observations)) as [|c l].
  - done.
  - rewrite lookup_insert_eq. simpl. by rewrite insert_insert_eq.
Qed.

Lemma persist_all fp observations (fs : files) :
  persist fp observations fs = <[fp := json_dump observations]> fs.
Proof.
  unfold persist, persist_ops.
  change (run_ops (Write fp <$> json_dump observations) (<[fp:=[]]> fs)
          = <[fp := json_dump observations]> fs).
  rewrite run_writes. unfold json_dump at 1.
  rewrite lookup_insert_eq. simpl. by rewrite insert_insert_eq.
Qed.

(** C4, as stated, fails: after the file has been opened for writing and
    before anything is written, the cache file is empty and no file holds
    the previous content. *)
Lemma persist_is_atomic_counterexample :
  ~ persist_is_atomic "c"
      [Observation.mk 1 None None; Observation.mk 2 None None]
      {[ "c" := json_dump [Observation.mk 1 None None] ]}.
Proof.
  intros H.
  destruct (H (json_dump [Observation.mk 1 None None])
              ltac:(apply lookup_singleton_eq) 1%nat) as [Hnew|[p Hold]].
  - rewrite persist_prefix, lookup_insert_eq in Hnew. discriminate Hnew.
  - rewrite persist_prefix in Hold.
    destruct (decide (p = "c")) as [->|Hne].
    + rewrite lookup_insert_eq in Hold. discriminate Hold.
    + rewrite lookup_insert_ne, lookup_singleton_ne in Hold by done.
      discriminate Hold.
Qed.

(** C4, amended: persisting overwrites the cache file in place.  Opening
    the file empties it, the pieces of the new text are then appended, and
    no other path is touched (no temporary file, no rename): a run cut after
    [k] steps leaves the file as it was when [k = 0], and else holds the
    first [k - 1] pieces of the new text; the whole run leaves the new
    text, which loads back as the merged observations. *)
Theorem persist_overwrites_in_place (fp : string)
  (merged : list Observation.t) (fs : files) (k : nat) :
  (forall p, p <> fp ->
     run_ops (take k (persist_ops fp merged)) fs !! p = fs !! p) /\
  run_ops (take k (persist_ops fp merged)) fs !! fp =
    match k with
    | O => fs !! fp
    | S k' => Some (take k' (json_dump merged))
    end /\
  persist fp merged fs !! fp = Some (json_dump merged) /\
  json_load (json_dump merged) = Ok merged.
Proof.
  split; [|split; [|split]].
  - intros p Hp. destruct k as [|k]; [done|].
    rewrite persist_prefix. by rewrite lookup_insert_ne.
  - destruct k as [|k]; [done|].
    rewrite persist_prefix. by rewrite lookup_insert_eq.
  - rewrite persist_all. by rewrite lookup_insert_eq.
  - apply json_load_dump.
Qed.

Lemma persist_overwrites_in_place_witness :
  (forall p, p <> "c" ->
     run_ops (take 1 (persist_ops "c" [Observation.mk 2 None None]))
       {[ "c" := json_dump [Observation.mk 1 None None] ]} !! p =
     ({[ "c" := json_dump [Observation.mk 1 None None] ]} : files) !! p) /\
  run_ops (take 1 (persist_ops "c" [Observation.mk 2 None None]))
    {[ "c" := json_dump [Observation.mk 1 None None] ]} !! "c" = Some [].
Proof.
  pose proof (persist_overwrites_in_place "c" [Observation.mk 2 None None]
                {[ "c" := json_dump [Observation.mk 1 None None] ]} 1)
    as (H1 & H2 & _).
  split; [exact H1 | exact H2].
Defined.

(** ** Fetching *)

Lemma requests_app t1 t2 : requests (t1 ++ t2) = requests t1 ++ requests t2.
Proof. apply omap_app. Qed.

Ltac count_requests :=
  repeat (rewrite requests_app || rewrite length_app); simpl; lia.

Lemma fetched_results_cons resp consumed :
  fetched_results (resp :: consumed) =
    (if status_code resp =? 200 then results resp else [])
    ++ fetched_results consumed.
Proof. done. Qed.

(** A loop that has ended has read a prefix of the answers, and has
    gathered the results of those with status 200. *)
Lemma fetch_loop_Some d1 script : forall page new n trace l,
  fetch_loop d1 script page new n trace = Some l ->
  exists consumed,
    script = consumed ++ unread l /\
    new_observations l = new ++ fetched_results consumed /\
    length (requests (loop_trace l)) =
      (length (requests trace) + length consumed)%nat.
Proof.
  induction script as [|resp script IH]; intros page new n trace l; [done|].
  cbn [fetch_loop].
  destruct (status_code resp =? 429) eqn:E429.
  { intros (consumed & -> & Hnew & Hlen)%IH. exists (resp :: consumed).
    apply Z.eqb_eq in E429. rewrite fetched_results_cons, E429. simpl.
    split; [done|]. split; [done|]. rewrite Hlen. count_requests. }
  destruct (status_code resp =? 422) eqn:E422.
  { intros [= <-]. exists [resp]. apply Z.eqb_eq in E422.
    rewrite fetched_results_cons, E422. simpl. rewrite app_nil_r.
    split; [done|]. split; [done|]. count_requests. }
  destruct (status_code resp =? 200) eqn:E200; cbn [negb].
  2:{ intros (consumed & -> & Hnew & Hlen)%IH. exists (resp :: consumed).
      rewrite fetched_results_cons, E200. simpl.
      split; [done|]. split; [done|]. rewrite Hlen. count_requests. }
  destruct (results resp) as [|o rs] eqn:Hres.
  { intros [= <-]. exists [resp]. rewrite fetched_results_cons, E200, Hres.
    simpl. rewrite app_nil_r.
    split; [done|]. split; [done|]. count_requests. }
  destruct (len (o :: rs) <? PER_PAGE).
  { intros [= <-]. exists [resp]. rewrite fetched_results_cons, E200, Hres.
    simpl. rewrite app_nil_r.
    split; [done|]. split; [done|]. count_requests. }
  intros (consumed & -> & Hnew & Hlen)%IH. exists (resp :: consumed).
  rewrite fetched_results_cons, E200, Hres.
  split; [done|]. split; [by rewrite Hnew, <- app_assoc|].
  rewrite Hlen. count_requests.
Qed.

(** A loop still running when the answers run out ends at once on a
    following answer with status 422. *)
Lemma fetch_loop_abort d1 pre : forall page new n trace resp rest,
  fetch_loop d1 pre page new n trace = None ->
  status_code resp = 422 ->
  exists l,
    fetch_loop d1 (pre ++ resp :: rest) page new n trace = Some l /\
    unread l = rest /\ valid_request l = false /\
    new_observations l = new ++ fetched_results pre /\
    exists trace', loop_trace l = trace' ++ [Log InvalidRequest].
Proof.
  induction pre as [|r pre IH]; intros page new n trace resp rest.
  - intros _ H422. simpl. rewrite H422. simpl. eexists. split; [done|].
    simpl. rewrite app_nil_r. repeat split. eauto.
  - rewrite <- app_comm_cons. cbn [fetch_loop]. rewrite fetched_results_cons.
    destruct (status_code r =? 429) eqn:E429.
    { apply Z.eqb_eq in E429. rewrite E429. simpl. apply IH. }
    destruct (status_code r =? 422); [done|].
    destruct (status_code r =? 200) eqn:E200; cbn [negb]; [|apply IH].
    destruct (results r) as [|o rs] eqn:Hres; [done|].
    destruct (len (o :: rs) <? PER_PAGE); [done|].
    intros Hnone H422.
    destruct (IH _ _ _ _ resp rest Hnone H422)
      as (l & Hl & Hun & Hval & Hnew & Htr).
    exists l. repeat (split; [done|]).
    split; [by rewrite Hnew, <- app_assoc|done].
Qed.

Lemma load_cache_cached fs username c last trace0 :
  load_cache fs (OBS_CACHE_FP username) = Ok (c, last, trace0) ->
  cached fs username = Ok c /\ requests trace0 = [].
Proof.
  unfold load_cache, cached. destruct (fs !! OBS_CACHE_FP username).
  - destruct (json_load l) as [obs|]; simpl; [|done].
    intros [= <- <- <-]. split; [done|]. destruct (max_date _); reflexivity.
  - by intros [= <- <- <-].
Qed.

Lemma start_date_requests next_day last d1 trace1 :
  start_date next_day last = Ok (d1, trace1) -> requests trace1 = [].
Proof.
  unfold start_date. destruct (truthy_str last) as [d|].
  - destruct (next_day d); simpl; [|done]. by intros [= <- <-].
  - by intros [= <- <-].
Qed.

Lemma fetch_observations_Returned next_day username fs script r :
  fetch_observations next_day username fs script = Returned r ->
  exists c last trace0 d1 trace1 l,
    load_cache fs (OBS_CACHE_FP username) = Ok (c, last, trace0) /\
    start_date next_day last = Ok (d1, trace1) /\
    fetch_loop d1 script 1 [] 0
      (trace0 ++ [Log (Fetching username)] ++ trace1) = Some l /\
    r = finish (OBS_CACHE_FP username) fs c l.
Proof.
  unfold fetch_observations.
  destruct (load_cache _ _) as [[[c last] trace0]|] eqn:Hload; [|done].
  destruct (start_date _ _) as [[d1 trace1]|] eqn:Hstart; [|done].
  destruct (fetch_loop _ _ _ _ _ _) as [l|] eqn:Hl; [|done].
  intros [= <-]. by exists c, last, trace0, d1, trace1, l.
Qed.

Lemma fetch_observations_Waiting next_day username fs script :
  fetch_observations next_day username fs script = Waiting ->
  exists c last trace0 d1 trace1,
    load_cache fs (OBS_CACHE_FP username) = Ok (c, last, trace0) /\
    start_date next_day last = Ok (d1, trace1) /\
    fetch_loop d1 script 1 [] 0
      (trace0 ++ [Log (Fetching username)] ++ trace1) = None.
Proof.
  unfold fetch_observations.
  destruct (load_cache _ _) as [[[c last] trace0]|] eqn:Hload; [|done].
  destruct (start_date _ _) as [[d1 trace1]|] eqn:Hstart; [|done].
  destruct (fetch_loop _ _ _ _ _ _) as [l|] eqn:Hl; [done|].
  intros _. by exists c, last, trace0, d1, trace1.
Qed.

(** What a run that returns has done, from the answers it has read. *)
Lemma fetch_observations_spec next_day username fs script r :
  fetch_observations next_day username fs script = Returned r ->
  exists c consumed,
    cached fs username = Ok c /\
    script = consumed ++ unread_of r /\
    length (requests (trace_of r)) = length consumed /\
    returned r =
      match fetched_results consumed with
      | [] => c
      | _ => merge c (fetched_results consumed)
      end /\
    files_after r =
      match fetched_results consumed with
      | [] => fs
      | _ => persist (OBS_CACHE_FP username)
               (merge c (fetched_results consumed)) fs
      end.
Proof.
  intros (c & last & trace0 & d1 & trace1 & l & Hload & Hstart & Hloop & ->)
    %fetch_observations_Returned.
  apply load_cache_cached in Hload as [Hc Hr0].
  apply start_date_requests in Hstart.
  apply fetch_loop_Some in Hloop as (consumed & Hscript & Hnew & Hlen).
  exists c, consumed. split; [done|]. simpl in Hnew.
  rewrite !requests_app, Hr0, Hstart in Hlen. simpl in Hlen.
  unfold finish. rewrite Hnew.
  destruct (fetched_results consumed); simpl;
    (split; [done|]); (split; [|done]);
    rewrite requests_app, length_app, Hlen;
    [destruct (valid_request l)|]; simpl; lia.
Qed.

(** ** No new records *)

(** C8: a run that finds no new remote record returns the cached
    observations as they were loaded and leaves every file as it was; the
    files differ after the run only when records were fetched. *)
Theorem no_new_records_cache_untouched (next_day : string -> result string)
  (username : string) (fs : files) (script : list response) (r : fetched) :
  fetch_observations next_day username fs script = Returned r ->
  exists c consumed,
    cached fs username = Ok c /\
    script = consumed ++ unread_of r /\
    (fetched_results consumed = [] ->
     returned r = c /\ files_after r = fs) /\
    (files_after r <> fs -> fetched_results consumed <> []).
Proof.
  intros (c & consumed & Hc & Hs & _ & Hret & Hfs)%fetch_observations_spec.
  exists c, consumed. split; [done|]. split; [done|].
  destruct (fetched_results consumed); [|done].
  split; [done|]. by intros ?.
Qed.

Lemma no_new_records_cache_untouched_witness :
  exists r,
    fetch_observations no_calendar "u"
      {[ OBS_CACHE_FP "u" := json_dump [Observation.mk 1 None None] ]}
      [mk_response 200 []] = Returned r /\
    exists c consumed,
      cached {[ OBS_CACHE_FP "u" := json_dump [Observation.mk 1 None None] ]}
        "u" = Ok c /\
      [mk_response 200 []] = consumed ++ unread_of r /\
      (fetched_results consumed = [] ->
       returned r = c /\
       files_after r =
         {[ OBS_CACHE_FP "u" := json_dump [Observation.mk 1 None None] ]}) /\
      (files_after r <>
         {[ OBS_CACHE_FP "u" := json_dump [Observation.mk 1 None None] ]} ->
       fetched_results consumed <> []).
Proof.
  eexists. split; [vm_compute; reflexivity|].
  apply (no_new_records_cache_untouched no_calendar "u" _ [mk_response 200 []]).
  vm_compute; reflexivity.
Defined.

(** ** Merging *)

Lemma merge_filter_cached c new i :
  i ∈ ids c ->
  filter (fun o => Observation.id o = i) (merge c new) =
  filter (fun o => Observation.id o = i) c.
Proof.
  intros Hi. unfold merge. rewrite filter_app.
  rewrite (filter_nil_forall _ (filter _ new)); [by rewrite app_nil_r|].
  intros o [Hnot _]%list_elem_of_filter Heq. apply Hnot.
  apply elem_of_list_to_set. by rewrite Heq.
Qed.

Lemma merge_NoDup c new :
  NoDup (ids c) -> NoDup (ids new) -> NoDup (ids (merge c new)).
Proof.
  intros Hc Hnew. unfold merge, ids. rewrite fmap_app.
  apply NoDup_app. split; [done|]. split.
  - intros i Hi (o & -> & [Hnot _]%list_elem_of_filter)%list_elem_of_fmap.
    apply Hnot. by apply elem_of_list_to_set.
  - unfold ids in Hnew. revert Hnew. generalize (list_to_set (Observation.id <$> c) : gset Z).
    intros S. induction new as [|o new IH]; [done|].
    rewrite fmap_cons. intros [Ho Hnew]%NoDup_cons. rewrite filter_cons.
    destruct (decide (Observation.id o ∉ S)); [|auto].
    rewrite fmap_cons. apply NoDup_cons. split; [|auto].
    intros (o' & Heq & [_ Hin]%list_elem_of_filter)%list_elem_of_fmap.
    apply Ho. apply list_elem_of_fmap. eauto.
Qed.

(** C9, as stated, fails: the fetched records are filtered against the
    ids of the cache only, not against each other.  With observation 1 in
    the cache and a page holding the observations 1, 3 and 3, the run
    returns the ids 1, 3, 3. *)
Lemma returned_ids_distinct_counterexample :
  ~ returned_ids_distinct no_calendar "u"
      {[ OBS_CACHE_FP "u" := json_dump [Observation.mk 1 None None] ]}
      [mk_response 200 [Observation.mk 1 None None;
                        Observation.mk 3 None None;
                        Observation.mk 3 None None]].
Proof.
  intros H.
  assert (exists r,
    fetch_observations no_calendar "u"
      {[ OBS_CACHE_FP "u" := json_dump [Observation.mk 1 None None] ]}
      [mk_response 200 [Observation.mk 1 None None;
                        Observation.mk 3 None None;
                        Observation.mk 3 None None]] = Returned r /\
    ids (returned r) = [1; 3; 3]) as (r & Hr & Hids).
  { eexists. split; [vm_compute; reflexivity|reflexivity]. }
  apply H in Hr. rewrite Hids in Hr.
  apply NoDup_cons in Hr as [_ Hr]. apply NoDup_cons in Hr as [Hr _].
  apply Hr. left.
Qed.

(** C9, amended: in the observations a run returns, an id of the cache
    occurs as often as in the cache, whatever the fetched records are: a
    fetched record whose id is in the cache is dropped.  Ids repeated among
    the fetched records are not removed: the ids returned are distinct when
    the ids of the cache are distinct and those of the fetched records are
    distinct. *)
Theorem fetched_ids_deduplicated (next_day : string -> result string)
  (username : string) (fs : files) (script : list response) (r : fetched) :
  fetch_observations next_day username fs script = Returned r ->
  exists c consumed,
    cached fs username = Ok c /\
    script = consumed ++ unread_of r /\
    (forall i, i ∈ ids c ->
       filter (fun o => Observation.id o = i) (returned r) =
       filter (fun o => Observation.id o = i) c) /\
    (NoDup (ids c) -> NoDup (ids (fetched_results consumed)) ->
     NoDup (ids (returned r))).
Proof.
  intros (c & consumed & Hc & Hs & _ & Hret & _)%fetch_observations_spec.
  exists c, consumed. split; [done|]. split; [done|]. rewrite Hret.
  destruct (fetched_results consumed) as [|o new]; [done|].
  split; [intros i Hi; by apply merge_filter_cached|apply merge_NoDup].
Qed.

Lemma fetched_ids_deduplicated_witness :
  exists r,
    fetch_observations no_calendar "u"
      {[ OBS_CACHE_FP "u" := json_dump [Observation.mk 1 None None] ]}
      [mk_response 200 [Observation.mk 1 None None; Observation.mk 2 None None]]
      = Returned r /\
    ids (returned r) = [1; 2] /\
    exists c consumed,
      cached {[ OBS_CACHE_FP "u" := json_dump [Observation.mk 1 None None] ]}
        "u" = Ok c /\
      [mk_response 200 [Observation.mk 1 None None; Observation.mk 2 None None]]
        = consumed ++ unread_of r /\
      (forall i, i ∈ ids c ->
         filter (fun o => Observation.id o = i) (returned r) =
         filter (fun o => Observation.id o = i) c) /\
      (NoDup (ids c) -> NoDup (ids (fetched_results consumed)) ->
       NoDup (ids (returned r))).
Proof.
  eexists. split; [vm_compute; reflexivity|]. split; [reflexivity|].
  apply (fetched_ids_deduplicated no_calendar "u" _
           [mk_response 200
              [Observation.mk 1 None None; Observation.mk 2 None None]]).
  vm_compute; reflexivity.
Defined.

(** ** A page answered with 422 *)

(** C3, as stated, fails: a first page of 200 records followed by a 422 on
    the second page returns the 200 records and writes them to the cache. *)
Lemma abort_returns_cache_only_counterexample :
  ~ abort_returns_cache_only no_calendar "u" ∅
      [mk_response 200 full_page; mk_response 422 []].
Proof.
  intros H.
  assert (exists r,
    fetch_observations no_calendar "u" ∅
      [mk_response 200 full_page; mk_response 422 []] = Returned r /\
    Log InvalidRequest ∈ trace_of r /\ returned r = full_page)
    as (r & Hr & Hlog & Hret).
  { eexists. split; [vm_compute; reflexivity|]. split; [|reflexivity].
    cbn [trace_of]. repeat constructor. }
  destruct (H r [] Hr Hlog eq_refl) as [Hc _].
  rewrite Hret in Hc. discriminate Hc.
Qed.

(** C3, amended: when a page is answered with 422 the loop ends at once:
    no further answer is read and no further request is made.  If no record
    had been fetched on earlier pages, the run returns the cached
    observations and writes nothing; the records of earlier pages, if any,
    are merged into the result and written to the cache. *)
Theorem abort_on_422 (next_day : string -> result string)
  (username : string) (fs : files) (pre : list response) (resp : response)
  (rest : list response) :
  fetch_observations next_day username fs pre = Waiting ->
  status_code resp = 422 ->
  exists r c,
    fetch_observations next_day username fs (pre ++ resp :: rest)
      = Returned r /\
    cached fs username = Ok c /\
    unread_of r = rest /\
    length (requests (trace_of r)) = S (length pre) /\
    Log InvalidRequest ∈ trace_of r /\
    returned r =
      match fetched_results pre with
      | [] => c
      | _ => merge c (fetched_results pre)
      end /\
    files_after r =
      match fetched_results pre with
      | [] => fs
      | _ => persist (OBS_CACHE_FP username)
               (merge c (fetched_results pre)) fs
      end.
Proof.
  intros (c & last & trace0 & d1 & trace1 & Hload & Hstart & Hloop)
    %fetch_observations_Waiting H422.
  destruct (fetch_loop_abort _ _ _ _ _ _ resp rest Hloop H422)
    as (l & Hl & Hun & Hval & Hnew & trace' & Htr).
  exists (finish (OBS_CACHE_FP username) fs c l), c.
  assert (fetch_observations next_day username fs (pre ++ resp :: rest)
          = Returned (finish (OBS_CACHE_FP username) fs c l)) as Hfetch.
  { unfold fetch_observations. by rewrite Hload, Hstart, Hl. }
  split; [done|].
  apply fetch_observations_spec in Hfetch
    as (c' & consumed & Hc' & Hs & Hlen & Hret & Hfs).
  pose proof Hload as [Hc _]%load_cache_cached.
  assert (c' = c) as -> by congruence.
  assert (unread_of (finish (OBS_CACHE_FP username) fs c l) = rest) as Hur.
  { unfold finish. by destruct (new_observations l). }
  rewrite Hur in Hs.
  assert (consumed = pre ++ [resp]) as ->.
  { apply (app_inv_tail rest). by rewrite <- app_assoc. }
  assert (fetched_results (pre ++ [resp]) = fetched_results pre) as Hfr.
  { unfold fetched_results. rewrite flat_map_app. simpl.
    rewrite H422. simpl. by rewrite app_nil_r. }
  rewrite Hfr in Hret, Hfs.
  split; [done|]. split; [done|].
  split; [by rewrite Hlen, length_app, Nat.add_1_r|].
  split; [|done].
  unfold finish. rewrite Htr, Hval.
  destruct (new_observations l); simpl; rewrite ?app_nil_r;
    repeat (rewrite elem_of_app || rewrite elem_of_cons); tauto.
Qed.

Lemma abort_on_422_witness :
  fetch_observations no_calendar "u" ∅ [mk_response 500 []] = Waiting /\
  status_code (mk_response 422 []) = 422 /\
  exists r c,
    fetch_observations no_calendar "u" ∅
      ([mk_response 500 []] ++ mk_response 422 [] :: [mk_response 200 []])
      = Returned r /\
    cached ∅ "u" = Ok c /\
    unread_of r = [mk_response 200 []] /\
    length (requests (trace_of r)) = 2%nat /\
    Log InvalidRequest ∈ trace_of r /\
    returned r =
      match fetched_results [mk_response 500 []] with
      | [] => c
      | _ => merge c (fetched_results [mk_response 500 []])
      end /\
    files_after r =
      match fetched_results [mk_response 500 []] with
      | [] => ∅
      | _ => persist (OBS_CACHE_FP "u")
               (merge c (fetched_results [mk_response 500 []])) ∅
      end.
Proof.
  split; [reflexivity|]. split; [reflexivity|].
  apply (abort_on_422 no_calendar "u" ∅ [mk_response 500 []]
           (mk_response 422 []) [mk_response 200 []]); reflexivity.
Defined.

(** * Further properties *)

(** ** The order of the output *)

Section stable_sort.
Context {A : Type} (key : A -> string).

Lemma insert_by_filter x l d :
  filter (fun a => key a = d) (insert_by key x l) =
  filter (fun a => key a = d) (x :: l).
Proof.
  induction l as [|y l IH]; [done|]. cbn [insert_by].
  destruct (String.leb (key x) (key y)) eqn:E; [done|].
  rewrite filter_cons, IH, !filter_cons.
  destruct (decide (key y = d)) as [Hy|Hy]; [|done].
  destruct (decide (key x = d)) as [Hx|Hx]; [|done].
  rewrite Hx, Hy, leb_refl in E. done.
Qed.

Lemma sorted_by_filter l d :
  filter (fun a => key a = d) (sorted_by key l) =
  filter (fun a => key a = d) l.
Proof.
  induction l as [|x l IH]; [done|].
  change (sorted_by key (x :: l)) with (insert_by key x (sorted_by key l)).
  by rewrite insert_by_filter, !filter_cons, IH.
Qed.

Lemma sorted_by_strongly_sorted l :
  StronglySorted (fun a b => String.leb (key a) (key b) = true)
                 (sorted_by key l).
Proof.
  apply Sorted_StronglySorted; [|apply sorted_by_sorted].
  intros a b c. apply leb_trans.
Qed.

End stable_sort.

(** X1: the tuples written to the report are the entries of the final leaf
    dictionary, each once, in non-decreasing order of their sort key (the
    recorded date, or the sentinel when there is none): every entry's key is
    at most the key of every later entry. *)
Theorem sorted_tuples_ordered (observations : list Observation.t) :
  exists r, reduce observations = Ok r /\
    sorted_leaf_taxon_id_info_tuples r ≡ₚ final_leaf_taxon_id_to_info r /\
    StronglySorted
      (fun a b => String.leb (sort_key (final_dates r) a)
                             (sort_key (final_dates r) b) = true)
      (sorted_leaf_taxon_id_info_tuples r).
Proof.
  destruct (reduce_total observations) as [r Hr]. exists r. split; [done|].
  apply reduce_Ok in Hr as (st & _ & ->). simpl.
  split; [apply sorted_by_perm | apply sorted_by_strongly_sorted].
Qed.

(** X2: the sort is stable: the entries that share a sort key come in the
    report in the order they have in the final leaf dictionary. *)
Theorem sorted_tuples_stable (observations : list Observation.t)
  (d : string) :
  exists r, reduce observations = Ok r /\
    filter (fun item => sort_key (final_dates r) item = d)
           (sorted_leaf_taxon_id_info_tuples r) =
    filter (fun item => sort_key (final_dates r) item = d)
           (final_leaf_taxon_id_to_info r).
Proof.
  destruct (reduce_total observations) as [r Hr]. exists r. split; [done|].
  apply reduce_Ok in Hr as (st & _ & ->). simpl. apply sorted_by_filter.
Qed.

(** ** What the taxon map holds *)

Lemma record_observation_infos st o :
  taxon_id_to_info (record_observation st o) =
    match Observation.taxon o with
    | Some taxon =>
        od_set (taxon_id_to_info st) (Taxon.id taxon) (info_of_taxon taxon)
    | None => taxon_id_to_info st
    end.
Proof.
  unfold record_observation. destruct (Observation.taxon o); [|done].
  by destruct (truthy_str _).
Qed.

Lemma infos_keys obs k :
  k ∈ od_keys (taxon_id_to_info (build_tables obs)) <->
  exists o, o ∈ obs /\ observes k o.
Proof.
  induction obs as [|o obs IH] using rev_ind.
  - split; [by intros ?%elem_of_nil|]. by intros (o & ?%elem_of_nil & _).
  - rewrite build_tables_snoc, record_observation_infos.
    assert ((exists o', o' ∈ obs ++ [o] /\ observes k o') <->
            (exists o', o' ∈ obs /\ observes k o') \/ observes k o) as ->.
    { split.
      - intros (o' & [Hin|Hin]%elem_of_app & Ho); [eauto|].
        apply list_elem_of_singleton in Hin as ->. by right.
      - intros [(o' & Hin & Ho)|Ho].
        + exists o'. split; [apply elem_of_app; by left|done].
        + exists o. split; [apply elem_of_app; right; left|done]. }
    rewrite <- IH. unfold observes.
    destruct (Observation.taxon o) as [taxon|].
    + rewrite od_keys_set_elem. split.
      * intros [->|?]; [right; eauto|by left].
      * intros [?|(t & [= <-] & <-)]; [by right|by left].
    + split; [by left|]. by intros [?|(t & [=] & _)].
Qed.

Lemma foldl_record_other obs : forall st k,
  (forall o, o ∈ obs -> ~ observes k o) ->
  od_get (taxon_id_to_info (foldl record_observation st obs)) k =
  od_get (taxon_id_to_info st) k.
Proof.
  induction obs as [|o obs IH]; intros st k Hk; [done|]. simpl.
  rewrite IH by (intros o' Ho'; apply Hk; by right).
  rewrite record_observation_infos.
  destruct (Observation.taxon o) as [taxon|] eqn:Ht; [|done].
  apply od_get_set_ne. intros Heq. apply (Hk o); [left|]. by exists taxon.
Qed.

(** X3: the keys of the taxon map are the taxon ids of the observations
    that have a taxon, each once; an observation without a taxon adds no
    key. *)
Theorem taxon_map_keys (observations : list Observation.t) (k : Z) :
  NoDup (od_keys (taxon_id_to_info (build_tables observations))) /\
  (k ∈ od_keys (taxon_id_to_info (build_tables observations)) <->
   exists o taxon, o ∈ observations /\
     Observation.taxon o = Some taxon /\ Taxon.id taxon = k).
Proof.
  split; [apply infos_NoDup|]. rewrite infos_keys. unfold observes.
  split.
  - intros (o & Ho & taxon & Ht & Hk). by exists o, taxon.
  - intros (o & taxon & Ho & Ht & Hk). exists o. split; [done|].
    by exists taxon.
Qed.

(** X4: last write wins: the entry of the taxon map for a taxon id is
    built from the last observation of that taxon, with the taxon's own id
    filtered out of its ancestor list. *)
Theorem taxon_map_last_write (before after : list Observation.t)
  (o : Observation.t) (taxon : Taxon.t) :
  Observation.taxon o = Some taxon ->
  (forall o', o' ∈ after -> ~ observes (Taxon.id taxon) o') ->
  od_get (taxon_id_to_info (build_tables (before ++ o :: after)))
         (Taxon.id taxon)
  = Some (info_of_taxon taxon).
Proof.
  intros Ht Hafter. unfold build_tables.
  rewrite foldl_app. simpl. rewrite foldl_record_other by done.
  rewrite record_observation_infos, Ht. apply od_get_set_eq.
Qed.

Lemma taxon_map_last_write_witness :
  Observation.taxon (Observation.mk 3 None
    (Some (Taxon.mk 2 (Some "genus") (Some [1; 2]) (Some "Foo") Absent)))
  = Some (Taxon.mk 2 (Some "genus") (Some [1; 2]) (Some "Foo") Absent) /\
  od_get (taxon_id_to_info (build_tables
            (ex_obs ++
             Observation.mk 3 None
               (Some (Taxon.mk 2 (Some "genus") (Some [1; 2]) (Some "Foo")
                        Absent)) :: [])))
         2
  = Some (TaxonInfo.mk 2 (Some "genus") [1] (Some "Foo") (Some EmptyString)).
Proof.
  split; [reflexivity|].
  apply (taxon_map_last_write ex_obs []
           (Observation.mk 3 None
              (Some (Taxon.mk 2 (Some "genus") (Some [1; 2]) (Some "Foo")
                       Absent)))
           (Taxon.mk 2 (Some "genus") (Some [1; 2]) (Some "Foo") Absent)).
  - reflexivity.
  - intros o' Ho'. by apply elem_of_nil in Ho'.
Defined.

Lemma infos_from_observation obs k info :
  od_get (taxon_id_to_info (build_tables obs)) k = Some info ->
  exists o taxon, o ∈ obs /\ Observation.taxon o = Some taxon /\
    Taxon.id taxon = k /\ info = info_of_taxon taxon.
Proof.
  revert k info. induction obs as [|o obs IH] using rev_ind; [done|].
  intros k info. rewrite build_tables_snoc, record_observation_infos.
  assert (od_get (taxon_id_to_info (build_tables obs)) k = Some info ->
    exists o0 taxon, o0 ∈ obs ++ [o] /\ Observation.taxon o0 = Some taxon /\
      Taxon.id taxon = k /\ info = info_of_taxon taxon) as Hold.
  { intros (o0 & taxon & Hin & H)%IH. exists o0, taxon.
    split; [apply elem_of_app; by left|done]. }
  destruct (Observation.taxon o) as [taxon|] eqn:Ht; [|done].
  destruct (decide (Taxon.id taxon = k)) as [<-|Hne].
  - rewrite od_get_set_eq. intros [= <-]. exists o, taxon.
    split; [apply elem_of_app; right; left|done].
  - by rewrite od_get_set_ne.
Qed.

(** X5: a stored ancestor list never holds the taxon's own id, and holds
    only ids of the [ancestor_ids] of an observation of that taxon. *)
Theorem stored_ancestors_exclude_self (observations : list Observation.t)
  (k : Z) (info : TaxonInfo.t) :
  od_get (taxon_id_to_info (build_tables observations)) k = Some info ->
  (k ∉ TaxonInfo.ancestor_ids info) /\
  exists o taxon, o ∈ observations /\ Observation.taxon o = Some taxon /\
    Taxon.id taxon = k /\
    forall a, a ∈ TaxonInfo.ancestor_ids info <->
      a ∈ default [] (Taxon.ancestor_ids taxon) /\ a <> k.
Proof.
  intros (o & taxon & Ho & Ht & <- & ->)%infos_from_observation.
  split.
  - simpl. by intros [? _]%list_elem_of_filter.
  - exists o, taxon. do 3 (split; [done|]).
    intros a. simpl. rewrite list_elem_of_filter. tauto.
Qed.

Lemma stored_ancestors_exclude_self_witness :
  od_get (taxon_id_to_info (build_tables ex_obs)) 10
    = Some (TaxonInfo.mk 10 (Some "subspecies") [1; 2] (Some "Foo bar baz")
              (Some EmptyString)) /\
  10 ∉ [1; 2].
Proof.
  split; [reflexivity|].
  apply (stored_ancestors_exclude_self ex_obs 10
           (TaxonInfo.mk 10 (Some "subspecies") [1; 2] (Some "Foo bar baz")
              (Some EmptyString))).
  reflexivity.
Defined.

(** ** Dates that the collapse leaves alone *)

Lemma collapse_dates_untouched infos dates0 P st :
  (forall k i, od_get infos k = Some i -> TaxonInfo.id i = k) ->
  foldM (collapse_step infos) P (mk_collapse [] dates0) = Ok st ->
  forall k, collapsed_items infos P k = [] ->
    od_get (dates_first_observed st) k = od_get dates0 k.
Proof.
  intros Hid Hst.
  refine (foldM_ind (collapse_step infos) (fun _ => True)
            (fun P st => forall k, collapsed_items infos P k = [] ->
               od_get (dates_first_observed st) k = od_get dates0 k)
            _ _ _ P st _ Hst); [done| |by apply Forall_forall].
  clear P st Hst. intros P [t info] st st' _ IH Hstep k.
  unfold collapsed_items. rewrite filter_app, filter_cons, filter_nil.
  simpl. intros [HP Hlast]%app_eq_nil.
  destruct (collapse_target infos info) as [s|] eqn:Ht.
  - destruct (collapse_step_target infos st t info s Hid Ht)
      as (parent & _ & Hstep').
    rewrite Hstep' in Hstep. injection Hstep as <-. simpl.
    destruct (decide (Some s = Some k)) as [|Hne]; [done|].
    rewrite od_get_set_ne by congruence. by apply IH.
  - rewrite collapse_step_keep in Hstep by done. injection Hstep as <-.
    by apply IH.
Qed.

(** X6: for a taxon id that no leaf candidate is collapsed into, the date
    map at the end holds the least [observed_on] of the observations of that
    taxon, and holds no entry when none of them has a date. *)
Theorem first_date_is_least (observations : list Observation.t) (k : Z) :
  exists r, reduce observations = Ok r /\
    (collapsed_into r k = [] ->
     match od_get (final_dates r) k with
     | Some m => is_least m (dates_of [k] observations)
     | None => dates_of [k] observations = []
     end).
Proof.
  destruct (reduce_total observations) as [r Hr]. exists r. split; [done|].
  apply reduce_Ok in Hr as (st & Hst & ->). unfold collapsed_into. simpl.
  intros Hk%fmap_nil_inv.
  rewrite (collapse_dates_untouched _ _ _ _ (infos_id observations) Hst k Hk).
  apply build_dates.
Qed.

Lemma first_date_is_least_witness :
  exists r, reduce ex_obs = Ok r /\
    collapsed_into r 10 = [] /\
    match od_get (final_dates r) 10 with
    | Some m => is_least m (dates_of [10] ex_obs)
    | None => dates_of [10] ex_obs = []
    end.
Proof.
  destruct (first_date_is_least ex_obs 10) as (r & Hr & H).
  exists r. split; [exact Hr|].
  assert (collapsed_into r 10 = []) as H10.
  { vm_compute in Hr. injection Hr as <-. reflexivity. }
  split; [exact H10 | exact (H H10)].
Defined.

Lemma is_least_unique m m' L L' :
  is_least m L -> is_least m' L' -> (forall d, d ∈ L <-> d ∈ L') -> m = m'.
Proof.
  intros [Hm Hle] [Hm' Hle'] Heq. apply String.leb_antisym.
  - apply Hle. by apply Heq.
  - apply Hle'. by apply Heq.
Qed.

(** X7: the date map built by the first loop does not depend on the order
    of the observations. *)
Theorem first_dates_order_independent
  (observations observations' : list Observation.t) (k : Z) :
  observations ≡ₚ observations' ->
  od_get (taxon_id_to_date_first_observed (build_tables observations)) k =
  od_get (taxon_id_to_date_first_observed (build_tables observations')) k.
Proof.
  intros Hperm.
  assert (forall d, d ∈ dates_of [k] observations <->
                    d ∈ dates_of [k] observations') as Heq.
  { intros d. rewrite !elem_of_dates_of.
    split; intros (o & taxon & Ho & H); exists o, taxon;
      (split; [|done]); [by rewrite <- Hperm | by rewrite Hperm]. }
  pose proof (build_dates observations k) as H1.
  pose proof (build_dates observations' k) as H2.
  destruct (od_get _ k) as [m|], (od_get _ k) as [m'|]; try done.
  - f_equal. by eapply is_least_unique.
  - destruct H1 as [H1 _]. apply Heq in H1. rewrite H2 in H1.
    by apply elem_of_nil in H1.
  - destruct H2 as [H2 _]. apply Heq in H2. rewrite H1 in H2.
    by apply elem_of_nil in H2.
Qed.

Lemma first_dates_order_independent_witness :
  ex_obs ≡ₚ reverse ex_obs /\
  od_get (taxon_id_to_date_first_observed (build_tables ex_obs)) 2 =
  od_get (taxon_id_to_date_first_observed (build_tables (reverse ex_obs))) 2.
Proof.
  assert (ex_obs ≡ₚ reverse ex_obs) as H by (apply Permutation_swap).
  split; [exact H|].
  apply (first_dates_order_independent ex_obs (reverse ex_obs) 2 H).
Defined.

(** ** Leaves that stay, and the species that is chosen *)

(** X8: a taxon of the taxon map that is in no stored ancestor list, and
    that is not collapsed (it is not infra-ranked, or no species ancestor
    was found), is in the final leaf dictionary with its own entry. *)
Theorem uncollapsed_leaf_is_kept (observations : list Observation.t)
  (k : Z) (info : TaxonInfo.t) :
  od_get (taxon_id_to_info (build_tables observations)) k = Some info ->
  (forall k' info', (k', info') ∈ taxon_id_to_info (build_tables observations) ->
     k ∉ TaxonInfo.ancestor_ids info') ->
  collapse_target (taxon_id_to_info (build_tables observations)) info = None ->
  exists r, reduce observations = Ok r /\
    od_get (final_leaf_taxon_id_to_info r) k = Some info.
Proof.
  intros Hk Hleaf Hnone.
  destruct (reduce_total observations) as [r Hr]. exists r. split; [done|].
  apply reduce_Ok in Hr as (st & Hst & ->). simpl.
  set (infos := taxon_id_to_info (build_tables observations)) in *.
  pose proof (infos_NoDup observations) as Hnd. fold infos in Hnd.
  apply collapse_keys in Hst as (_ & Hkeys & Hvals);
    [|apply infos_id|by apply leaf_taxa_get].
  assert (k ∈ od_keys (collapsed_taxon_id_to_info st)) as Hin.
  { apply Hkeys. exists (k, info). split; [|by right].
    apply elem_of_leaf_taxa. split; [by apply od_get_Some_elem|].
    intros (k' & info' & Hin' & Ha)%elem_of_collect_ancestor_ids.
    by apply (Hleaf k' info'). }
  apply od_get_is_Some in Hin as [v Hv].
  rewrite Hv. f_equal. apply Hvals in Hv. congruence.
Qed.

Lemma uncollapsed_leaf_is_kept_witness :
  exists r, reduce undated_obs = Ok r /\
    od_get (final_leaf_taxon_id_to_info r) 7
    = Some (TaxonInfo.mk 7 (Some "species") [1] (Some "Baz qux")
              (Some EmptyString)).
Proof.
  apply (uncollapsed_leaf_is_kept undated_obs 7
           (TaxonInfo.mk 7 (Some "species") [1] (Some "Baz qux")
              (Some EmptyString))).
  - reflexivity.
  - intros k' info' Hin Ha.
    assert (Forall (fun kv => 7 ∉ TaxonInfo.ancestor_ids kv.2)
              (taxon_id_to_info (build_tables undated_obs))) as HF.
    { vm_compute. repeat constructor; intros H; inversion H; subst;
        match goal with H : _ ∈ _ |- _ => inversion H end. }
    rewrite Forall_forall in HF. exact (HF _ Hin Ha).
  - reflexivity.
Defined.

Lemma find_species_nearest infos l s :
  find_species infos l = Some s ->
  exists l1 l2, l = l1 ++ s :: l2 /\
    forall a anc, a ∈ l1 -> od_get infos a = Some anc ->
      TaxonInfo.rank anc <> Some "species".
Proof.
  induction l as [|a l IH]; [done|]. simpl.
  assert (find_species infos l = Some s ->
          (forall anc, od_get infos a = Some anc ->
             TaxonInfo.rank anc <> Some "species") ->
          exists l1 l2, a :: l = l1 ++ s :: l2 /\
            forall a' anc, a' ∈ l1 -> od_get infos a' = Some anc ->
              TaxonInfo.rank anc <> Some "species") as Hrec.
  { intros (l1 & l2 & -> & Hl1)%IH Ha. exists (a :: l1), l2.
    split; [done|]. intros a' anc [->|Hin]%elem_of_cons; eauto. }
  destruct (od_get infos a) as [anc|] eqn:Ha.
  - case_bool_decide as Hr.
    + intros [= <-]. exists [], l. split; [done|].
      by intros ? ? ?%elem_of_nil.
    + intros H. apply Hrec; [done|]. by intros ? [= <-].
  - intros H. by apply Hrec.
Qed.

(** X9: the species a candidate is collapsed into is its nearest species
    ancestor: the ancestors listed after it are not taxa of rank "species"
    of the taxon map.  It is itself a taxon of rank "species" of the map. *)
Theorem nearest_species_wins (infos : odict TaxonInfo.t)
  (info : TaxonInfo.t) (s : Z) :
  species_id_of infos info = Some s ->
  exists farther nearer anc,
    TaxonInfo.ancestor_ids info = farther ++ s :: nearer /\
    od_get infos s = Some anc /\ TaxonInfo.rank anc = Some "species" /\
    forall a anc', a ∈ nearer -> od_get infos a = Some anc' ->
      TaxonInfo.rank anc' <> Some "species".
Proof.
  intros Hs. pose proof Hs as (_ & _ & anc & Hanc & Hrank)%species_id_of_Some.
  unfold species_id_of in Hs. cbv zeta in Hs.
  destruct (bool_decide _); [|done].
  apply find_species_nearest in Hs as (l1 & l2 & Hrev & Hl1).
  exists (reverse l2), (reverse l1), anc. split.
  - rewrite <- (reverse_involutive (TaxonInfo.ancestor_ids info)), Hrev.
    by rewrite reverse_app, reverse_cons, <- app_assoc.
  - split; [done|]. split; [done|].
    intros a anc' Ha. apply Hl1. by apply elem_of_reverse.
Qed.

Lemma nearest_species_wins_witness :
  species_id_of
    [(1, TaxonInfo.mk 1 (Some "species") [] None None);
     (2, TaxonInfo.mk 2 (Some "species") [1] None None);
     (3, TaxonInfo.mk 3 (Some "form") [1; 2] None None)]
    (TaxonInfo.mk 3 (Some "form") [1; 2] None None) = Some 2 /\
  exists farther nearer anc,
    [1; 2] = farther ++ 2 :: nearer /\
    od_get [(1, TaxonInfo.mk 1 (Some "species") [] None None);
            (2, TaxonInfo.mk 2 (Some "species") [1] None None);
            (3, TaxonInfo.mk 3 (Some "form") [1; 2] None None)] 2 = Some anc /\
    TaxonInfo.rank anc = Some "species" /\
    forall a anc', a ∈ nearer ->
      od_get [(1, TaxonInfo.mk 1 (Some "species") [] None None);
              (2, TaxonInfo.mk 2 (Some "species") [1] None None);
              (3, TaxonInfo.mk 3 (Some "form") [1; 2] None None)] a
        = Some anc' ->
      TaxonInfo.rank anc' <> Some "species".
Proof.
  split; [vm_compute; reflexivity|].
  apply (nearest_species_wins
           [(1, TaxonInfo.mk 1 (Some "species") [] None None);
            (2, TaxonInfo.mk 2 (Some "species") [1] None None);
            (3, TaxonInfo.mk 3 (Some "form") [1; 2] None None)]
           (TaxonInfo.mk 3 (Some "form") [1; 2] None None) 2).
  vm_compute; reflexivity.
Defined.

(** ** The report *)

Lemma row_values_ready dates i item :
  row_ready dates item = true ->
  exists date cn sn rk,
    od_get dates item.1 = Some date /\
    row_values dates i item =
      Ok [str_of_Z i; date; cn; sn; rk; TAXON_URL item.1].
Proof.
  destruct item as [taxon_id info]. unfold row_ready, row_values, od_mem,
    od_index. simpl.
  rewrite !andb_true_iff, !bool_decide_eq_true.
  intros [[[Hd [cn ->]] [sn ->]] [rk ->]].
  destruct (od_get dates taxon_id) as [date|]; [|done]. simpl.
  destruct (title_case_ok cn) as [cn' ->].
  destruct (title_case_ok sn) as [sn' ->].
  destruct (title_case_ok rk) as [rk' ->]. simpl.
  by exists date, (or_unknown cn'), (or_unknown sn'), rk'.
Qed.

Lemma row_values_not_ready dates i item :
  row_ready dates item = false -> exists e, row_values dates i item = Raise e.
Proof.
  destruct item as [taxon_id info]. unfold row_ready, row_values, od_mem,
    od_index. simpl.
  destruct (od_get dates taxon_id) as [date|]; simpl; [|by eexists].
  destruct (TaxonInfo.common_name info) as [cn|]; simpl; [|by eexists].
  destruct (title_case_ok cn) as [cn' ->]. simpl.
  destruct (TaxonInfo.name info) as [sn|]; simpl; [|by eexists].
  destruct (title_case_ok sn) as [sn' ->]. simpl.
  destruct (TaxonInfo.rank info) as [rk|]; simpl; [|by eexists].
  done.
Qed.

Lemma rows_from_ready dates items : forall i,
  forallb (row_ready dates) items = true ->
  exists rows, rows_from dates i items = Ok rows /\
    length rows = length items /\
    forall (j : nat) item, items !! j = Some item ->
      exists row, rows !! j = Some row /\
        row_values dates (i + Z.of_nat j) item = Ok row.
Proof.
  induction items as [|item items IH]; intros i.
  - intros _. exists []. by repeat split.
  - simpl. intros [Hitem Hitems]%andb_prop.
    destruct (row_values_ready dates i item Hitem)
      as (date & cn & sn & rk & _ & Hrow).
    destruct (IH (i + 1) Hitems) as (rows & Hrows & Hlen & Hnth).
    rewrite Hrow. simpl. rewrite Hrows. simpl. eexists. split; [done|].
    split; [simpl; by rewrite Hlen|].
    intros [|j] item'; simpl.
    + intros [= <-]. eexists. split; [done|]. by rewrite Z.add_0_r.
    + intros Hj. destruct (Hnth j item' Hj) as (row & Hr & Hv).
      exists row. split; [done|]. rewrite <- Hv. f_equal. lia.
Qed.

Lemma rows_from_not_ready dates items : forall i,
  forallb (row_ready dates) items = false ->
  exists e, rows_from dates i items = Raise e.
Proof.
  induction items as [|item items IH]; intros i; [done|]. simpl.
  destruct (row_ready dates item) eqn:Hitem; simpl.
  - intros Hitems. destruct (IH (i + 1) Hitems) as [e He].
    destruct (row_values dates i item); simpl; [|by eexists].
    rewrite He. by eexists.
  - intros _. destruct (row_values_not_ready dates i item Hitem) as [e ->].
    by eexists.
Qed.

Lemma forallb_perm {A : Type} (f : A -> bool) l l' :
  l ≡ₚ l' -> forallb f l = forallb f l'.
Proof.
  induction 1 as [|x l l' _ IH|x y l|l1 l2 l3 _ IH1 _ IH2]; simpl.
  - done.
  - by rewrite IH.
  - destruct (f x), (f y); done.
  - by rewrite IH1.
Qed.

Lemma final_nil_iff observations r :
  reduce observations = Ok r ->
  final_leaf_taxon_id_to_info r = [] <-> leaves_of r = [].
Proof.
  intros (st & Hst & ->)%reduce_Ok. simpl.
  set (infos := taxon_id_to_info (build_tables observations)) in *.
  pose proof (infos_NoDup observations) as Hnd. fold infos in Hnd.
  split.
  - intros Hnil. apply collapse_keys in Hst as (_ & Hkeys & _);
      [|apply infos_id|by apply leaf_taxa_get].
    destruct (leaf_taxa infos) as [|[t info] leaves]; [done|]. exfalso.
    destruct (collapse_target infos info) as [s|] eqn:Ht.
    + assert (s ∈ od_keys (collapsed_taxon_id_to_info st)) as Hin.
      { apply Hkeys. exists (t, info). split; [left|by left]. }
      rewrite Hnil in Hin. by apply elem_of_nil in Hin.
    + assert (t ∈ od_keys (collapsed_taxon_id_to_info st)) as Hin.
      { apply Hkeys. exists (t, info). split; [left|by right]. }
      rewrite Hnil in Hin. by apply elem_of_nil in Hin.
  - intros Hnil. rewrite Hnil in Hst. simpl in Hst. by injection Hst as <-.
Qed.

(** X11: no report file is written exactly when there is no leaf
    candidate, that is when no taxon of the taxon map is outside every
    stored ancestor list (in particular when no observation has a taxon);
    in that case the command returns without raising. *)
Theorem no_report_iff_no_leaf (observations : list Observation.t) :
  report observations = Ok None <->
  leaf_taxa (taxon_id_to_info (build_tables observations)) = [].
Proof.
  destruct (reduce_total observations) as [r Hr].
  pose proof (final_nil_iff _ _ Hr) as Hnil.
  unfold report. rewrite Hr. simpl.
  apply reduce_Ok in Hr as (st & Hst & ->). simpl in *.
  rewrite <- Hnil. unfold write_report. simpl.
  destruct (collapsed_taxon_id_to_info st) as [|item final]; [done|].
  split; [|done].
  by destruct (rows_from _ _ _).
Qed.

(** X12: writing the report raises exactly when some entry of the final
    leaf dictionary has no recorded date, or has [None] for its common
    name, its name or its rank. *)
Theorem report_raises_iff (observations : list Observation.t) :
  exists r, reduce observations = Ok r /\
    ((exists e, report observations = Raise e) <->
     forallb (row_ready (final_dates r)) (final_leaf_taxon_id_to_info r)
       = false).
Proof.
  destruct (reduce_total observations) as [r Hr]. exists r. split; [done|].
  unfold report. rewrite Hr. simpl.
  assert (sorted_leaf_taxon_id_info_tuples r ≡ₚ final_leaf_taxon_id_to_info r)
    as Hperm.
  { apply reduce_Ok in Hr as (st & _ & ->). apply sorted_by_perm. }
  rewrite <- (forallb_perm _ _ _ Hperm). unfold write_report.
  destruct (final_leaf_taxon_id_to_info r) as [|item final] eqn:Hf.
  { apply Permutation_nil_r in Hperm. rewrite Hperm. simpl.
    split; [by intros [e [=]]|done]. }
  destruct (forallb _ (sorted_leaf_taxon_id_info_tuples r)) eqn:Hall.
  - destruct (rows_from_ready _ _ 1 Hall) as (rows & -> & _). simpl.
    split; [by intros [e [=]]|done].
  - destruct (rows_from_not_ready _ _ 1 Hall) as [e ->]. simpl.
    split; [done|]. by eexists.
Qed.

(** X13: when every entry can be written and there is at least one, the
    report is the header line followed by one row per entry of the final
    leaf dictionary, in the sorted order; row number [j] (from 0) has six
    fields, of which the first is the index [j + 1], the second the
    recorded date and the last the URL of the taxon. *)
Theorem report_rows (observations : list Observation.t) (r : reduction) :
  reduce observations = Ok r ->
  final_leaf_taxon_id_to_info r <> [] ->
  forallb (row_ready (final_dates r)) (final_leaf_taxon_id_to_info r) = true ->
  exists rows,
    report observations = Ok (Some (column_names :: rows)) /\
    length rows = length (final_leaf_taxon_id_to_info r) /\
    forall (j : nat) item,
      sorted_leaf_taxon_id_info_tuples r !! j = Some item ->
      exists row, rows !! j = Some row /\
        length row = 6%nat /\
        row !! 0%nat = Some (str_of_Z (Z.of_nat j + 1)) /\
        row !! 1%nat = od_get (final_dates r) item.1 /\
        row !! 5%nat = Some (TAXON_URL item.1).
Proof.
  intros Hr Hne Hall.
  assert (sorted_leaf_taxon_id_info_tuples r ≡ₚ final_leaf_taxon_id_to_info r)
    as Hperm.
  { apply reduce_Ok in Hr as (st & _ & ->). apply sorted_by_perm. }
  rewrite <- (forallb_perm _ _ _ Hperm) in Hall.
  destruct (rows_from_ready _ _ 1 Hall) as (rows & Hrows & Hlen & Hnth).
  exists rows. unfold report. rewrite Hr. simpl. unfold write_report.
  destruct (final_leaf_taxon_id_to_info r) as [|item0 final] eqn:Hf; [done|].
  rewrite Hrows. simpl. split; [done|].
  split; [by rewrite Hlen, Hperm|].
  intros j item Hj. destruct (Hnth j item Hj) as (row & Hrow & Hv).
  exists row. split; [done|].
  assert (row_ready (final_dates r) item = true) as Hready.
  { rewrite forallb_forall in Hall. apply Hall, list_elem_of_In.
    by eapply list_elem_of_lookup_2. }
  destruct (row_values_ready (final_dates r) (1 + Z.of_nat j) item Hready)
    as (date & cn & sn & rk & Hdate & Hv').
  rewrite Hv' in Hv. injection Hv as <-. rewrite Hdate.
  repeat split; try done. simpl. do 2 f_equal. lia.
Qed.

Lemma report_rows_witness :
  exists r rows,
    reduce ex_obs = Ok r /\
    final_leaf_taxon_id_to_info r <> [] /\
    forallb (row_ready (final_dates r)) (final_leaf_taxon_id_to_info r)
      = true /\
    report ex_obs = Ok (Some (column_names :: rows)) /\
    length rows = length (final_leaf_taxon_id_to_info r).
Proof.
  destruct (reduce_total ex_obs) as [r Hr]. exists r.
  assert (final_leaf_taxon_id_to_info r <> [] /\
          forallb (row_ready (final_dates r)) (final_leaf_taxon_id_to_info r)
            = true) as [H1 H2].
  { vm_compute in Hr. injection Hr as <-. split; [discriminate|reflexivity]. }
  destruct (report_rows ex_obs r Hr H1 H2) as (rows & Hrep & Hlen & _).
  exists rows. repeat split; assumption.
Defined.

(** ** The console table *)

Lemma table_from_drop n p rows : forall i,
  table_from n p i rows = drop (Z.to_nat (n - p - i + 1)) rows.
Proof.
  induction rows as [|row rows IH]; intros i; [by rewrite drop_nil|].
  cbn [table_from]. rewrite IH.
  destruct (n - p <? i) eqn:E.
  - apply Z.ltb_lt in E.
    replace (Z.to_nat (n - p - i + 1)) with 0%nat by lia.
    replace (Z.to_nat (n - p - (i + 1) + 1)) with 0%nat by lia. done.
  - apply Z.ltb_ge in E.
    replace (Z.to_nat (n - p - i + 1))
      with (S (Z.to_nat (n - p - (i + 1) + 1))) by lia.
    done.
Qed.

Lemma rows_from_length dates items : forall i rows,
  rows_from dates i items = Ok rows -> length rows = length items.
Proof.
  induction items as [|item items IH]; intros i rows; simpl.
  - by intros [= <-].
  - destruct (row_values dates i item); simpl; [|done].
    destruct (rows_from dates (i + 1) items) as [rows'|] eqn:E; simpl;
      [|done].
    intros [= <-]. simpl. f_equal. by eapply IH.
Qed.

(** X14: when the report is written, the console table holds the last
    [num_to_print] rows of the report, in the same order: all of them when
    [num_to_print] is at least the number of leaf taxa, none when it is
    zero or negative. *)
Theorem console_table_last_rows (observations : list Observation.t)
  (r : reduction) (num_to_print : Z) (rows : list (list string)) :
  reduce observations = Ok r ->
  report observations = Ok (Some (column_names :: rows)) ->
  console_table r num_to_print =
    Ok (Some (drop (Z.to_nat (len rows - num_to_print)) rows)).
Proof.
  intros Hr. unfold report. rewrite Hr. simpl.
  unfold write_report, console_table.
  assert (sorted_leaf_taxon_id_info_tuples r ≡ₚ final_leaf_taxon_id_to_info r)
    as Hperm.
  { apply reduce_Ok in Hr as (st & _ & ->). apply sorted_by_perm. }
  destruct (final_leaf_taxon_id_to_info r) as [|item final] eqn:Hf; [done|].
  destruct (rows_from _ _ _) as [rows'|] eqn:Hrows; simpl; [|done].
  intros [= <-]. rewrite table_from_drop. do 3 f_equal.
  apply rows_from_length in Hrows. unfold len. rewrite Hrows, Hperm. lia.
Qed.

Lemma console_table_last_rows_witness :
  exists r rows,
    reduce ex_obs = Ok r /\
    report ex_obs = Ok (Some (column_names :: rows)) /\
    console_table r 30 = Ok (Some (drop (Z.to_nat (len rows - 30)) rows)).
Proof.
  eexists _, _. split; [vm_compute; reflexivity|].
  split; [vm_compute; reflexivity|].
  apply (console_table_last_rows ex_obs); vm_compute; reflexivity.
Defined.

(** ** The words of [title_case] *)

Lemma append_cons c s t :
  String.append (String c s) t = String c (String.append s t).
Proof. done. Qed.

Lemma append_nil_l t : String.append EmptyString t = t.
Proof. done. Qed.

Lemma append_nil_r s : String.append s EmptyString = s.
Proof.
  induction s as [|c s IH]; [done|]. by rewrite append_cons, IH.
Qed.

Lemma append_assoc s1 s2 s3 :
  String.append (String.append s1 s2) s3 =
  String.append s1 (String.append s2 s3).
Proof.
  induction s1 as [|c s1 IH]; [done|]. by rewrite !append_cons, IH.
Qed.

Lemma no_space_append w u :
  no_space (String.append w u) = no_space w && no_space u.
Proof.
  induction w as [|c w IH]; [done|].
  rewrite append_cons. simpl. by rewrite IH, andb_assoc.
Qed.

Lemma split_from_word u : forall w s,
  no_space u = true ->
  split_from w (String.append u s) = split_from (String.append w u) s.
Proof.
  induction u as [|c u IH]; intros w s.
  - by rewrite append_nil_l, append_nil_r.
  - rewrite append_cons. simpl.
    intros [Hc Hu]%andb_prop. apply negb_true_iff in Hc. rewrite Hc.
    rewrite IH by done. rewrite append_assoc.
    by rewrite append_cons, append_nil_l.
Qed.

Lemma split_from_no_space s : forall w,
  no_space w = true ->
  Forall (fun word => no_space word = true) (split_from w s).
Proof.
  induction s as [|c s IH]; intros w Hw; simpl.
  - destruct w; simpl; repeat constructor; done.
  - destruct (is_space c) eqn:Hc.
    + apply Forall_app. split; [|by apply IH].
      destruct w; simpl; repeat constructor; done.
    + apply IH. rewrite no_space_append, Hw. simpl. by rewrite Hc.
Qed.

Lemma concat_cons_cons sep x y words :
  String.concat sep (x :: y :: words) =
  String.append x (String.append sep (String.concat sep (y :: words))).
Proof. done. Qed.

Lemma split_from_space w s :
  split_from w (String " " s) = flush w ++ split_from EmptyString s.
Proof. done. Qed.

Lemma split_join words :
  Forall (fun word => word <> EmptyString) words ->
  Forall (fun word => no_space word = true) words ->
  split (join words) = words.
Proof.
  unfold split, join.
  induction words as [|x words IH]; [done|].
  intros [Hx Hne]%Forall_cons [Hsx Hs]%Forall_cons.
  destruct words as [|y words].
  - cbn [String.concat]. rewrite <- (append_nil_r x) at 1.
    rewrite split_from_word, append_nil_l by done. simpl. by destruct x.
  - rewrite concat_cons_cons, split_from_word, append_nil_l by done.
    rewrite append_cons, append_nil_l, split_from_space.
    rewrite IH by done. by destruct x.
Qed.

Lemma is_space_upper_char c : is_space (upper_char c) = is_space c.
Proof. by destruct c as [[] [] [] [] [] [] [] []]. Qed.

Lemma upper_char_idemp c : upper_char (upper_char c) = upper_char c.
Proof. by destruct c as [[] [] [] [] [] [] [] []]. Qed.

Lemma mapM_capitalize words :
  Forall (fun word => word <> EmptyString) words ->
  mapM capitalize_word words = Ok (capitalized <$> words).
Proof.
  induction 1 as [|word words Hw _ IH]; [done|].
  destruct word as [|c w]; [done|].
  cbn [mapM]. simpl. rewrite IH. done.
Qed.

Lemma capitalized_words words :
  Forall (fun word => word <> EmptyString) words ->
  Forall (fun word => no_space word = true) words ->
  Forall (fun word => word <> EmptyString) (capitalized <$> words) /\
  Forall (fun word => no_space word = true) (capitalized <$> words) /\
  capitalized <$> (capitalized <$> words) = capitalized <$> words.
Proof.
  induction words as [|word words IH]; [done|].
  intros [Hx Hne]%Forall_cons [Hsx Hs]%Forall_cons.
  destruct word as [|c w]; [done|].
  destruct (IH Hne Hs) as (H1 & H2 & H3).
  rewrite !fmap_cons. simpl. split; [by constructor|]. split.
  - constructor; [|done]. simpl in *. by rewrite is_space_upper_char.
  - by rewrite upper_char_idemp, H3.
Qed.

(** X15: on ASCII text, [title_case] keeps the words of the text, each
    with its first character uppercased, and joins them with single spaces;
    applying it to its own result changes nothing. *)
Theorem title_case_words (text : string) :
  is_ascii text = true ->
  exists r, title_case text = Ok r /\
    split r = capitalized <$> split text /\
    title_case r = Ok r.
Proof.
  intros _.
  pose proof (split_nonempty text) as Hne.
  pose proof (split_from_no_space text EmptyString eq_refl) as Hns.
  fold (split text) in Hns.
  destruct (capitalized_words _ Hne Hns) as (H1 & H2 & H3).
  exists (join (capitalized <$> split text)).
  unfold title_case. rewrite mapM_capitalize by done. simpl.
  rewrite split_join by done. split; [done|]. split; [done|].
  rewrite mapM_capitalize by done. simpl. by rewrite H3.
Qed.

Lemma title_case_words_witness :
  is_ascii "  foo  bar baz " = true /\
  exists r, title_case "  foo  bar baz " = Ok r /\
    split r = capitalized <$> split "  foo  bar baz " /\
    title_case r = Ok r.
Proof.
  split; [reflexivity|].
  apply (title_case_words "  foo  bar baz "). reflexivity.
Defined.

(** ** The turns of the loop *)

Lemma fetch_loop_ends d1 script : forall page new n trace,
  match fetch_loop d1 script page new n trace with
  | None => forallb (fun resp => negb (ends_loop resp)) script = true
  | Some l =>
      exists pre last,
        script = pre ++ last :: unread l /\
        ends_loop last = true /\
        forallb (fun resp => negb (ends_loop resp)) pre = true /\
        requests (loop_trace l) =
          requests trace ++ pages_from page (pre ++ [last])
  end.
Proof.
  induction script as [|resp script IH]; intros page new n trace; [done|].
  cbn [fetch_loop forallb].
  assert (forall page' new' n' trace',
    requests trace' = requests trace ++ [page] ->
    page' = (if status_code resp =? 200 then page + 1 else page) ->
    ends_loop resp = false ->
    match fetch_loop d1 script page' new' n' trace' with
    | None =>
        negb (ends_loop resp)
        && forallb (fun resp => negb (ends_loop resp)) script = true
    | Some l =>
        exists pre last,
          resp :: script = pre ++ last :: unread l /\
          ends_loop last = true /\
          forallb (fun resp => negb (ends_loop resp)) pre = true /\
          requests (loop_trace l) =
            requests trace ++ pages_from page (pre ++ [last])
    end) as Hrec.
  { intros page' new' n' trace' Htrace -> Hends. rewrite Hends.
    specialize (IH (if status_code resp =? 200 then page + 1 else page)
                   new' n' trace').
    destruct (fetch_loop _ _ _ _ _ _) as [l|]; [|done].
    destruct IH as (pre & last & -> & Hlast & Hpre & Hreq).
    exists (resp :: pre), last. split; [done|]. split; [done|].
    split; [simpl; by rewrite Hends|].
    by rewrite Hreq, Htrace, <- app_assoc. }
  assert (forall trace',
    requests trace' = requests trace ++ [page] ->
    ends_loop resp = true ->
    exists pre last,
      resp :: script = pre ++ last :: script /\
      ends_loop last = true /\
      forallb (fun resp => negb (ends_loop resp)) pre = true /\
      requests trace' =
        requests trace ++ pages_from page (pre ++ [last])) as Hend.
  { intros trace' Htrace Hends. exists [], resp. by repeat (split; [done|]). }
  assert (forall tail, requests tail = [] ->
    requests ((trace ++ [Get d1 page]) ++ tail) = requests trace ++ [page])
    as Htail.
  { intros tail Ht. by rewrite !requests_app, Ht, app_nil_r. }
  assert (requests (trace ++ [Get d1 page]) = requests trace ++ [page])
    as Htail0 by by rewrite requests_app.
  destruct (status_code resp =? 429) eqn:E429.
  { apply Z.eqb_eq in E429.
    apply Hrec; [by apply Htail|by rewrite E429|].
    unfold ends_loop. by rewrite E429. }
  destruct (status_code resp =? 422) eqn:E422.
  { cbn [unread loop_trace]. apply Hend; [by apply Htail|].
    unfold ends_loop. by rewrite E422. }
  destruct (status_code resp =? 200) eqn:E200; cbn [negb].
  2:{ apply Hrec; [by apply Htail|reflexivity|].
      unfold ends_loop. by rewrite E422, E200. }
  destruct (results resp) as [|o rs] eqn:Hres.
  { cbn [unread loop_trace]. apply Hend; [done|].
    unfold ends_loop. by rewrite E200, Hres, orb_true_r. }
  destruct (len (o :: rs) <? PER_PAGE) eqn:Elen.
  { cbn [unread loop_trace]. apply Hend; [by apply Htail|].
    unfold ends_loop. by rewrite E200, Hres, Elen, orb_true_r. }
  apply Hrec; [|reflexivity|].
  - rewrite requests_app, Htail by done. simpl. by rewrite app_nil_r.
  - unfold ends_loop. by rewrite E422, E200, Hres, Elen.
Qed.

(** X16: a run ends at the first answer that is a 422 or a page of fewer
    than [PER_PAGE] results and reads nothing after it; as long as the
    answers are other statuses or full pages it keeps asking.  The pages it
    asks for start at 1; it asks again for the same page after an answer
    that is not a 200 and for the next page after a full page. *)
Theorem run_ends_at_first_final_answer (next_day : string -> result string)
  (username : string) (fs : files) (script : list response) :
  match fetch_observations next_day username fs script with
  | Waiting => forallb (fun resp => negb (ends_loop resp)) script = true
  | Returned r =>
      exists pre last,
        script = pre ++ last :: unread_of r /\
        ends_loop last = true /\
        forallb (fun resp => negb (ends_loop resp)) pre = true /\
        requests (trace_of r) = pages_from 1 (pre ++ [last])
  | Raised _ => True
  end.
Proof.
  unfold fetch_observations.
  destruct (load_cache _ _) as [[[c last] trace0]|] eqn:Hload; [|done].
  destruct (start_date _ _) as [[d1 trace1]|] eqn:Hstart; [|done].
  apply load_cache_cached in Hload as [_ Hr0].
  apply start_date_requests in Hstart.
  pose proof (fetch_loop_ends d1 script 1 [] 0
                (trace0 ++ [Log (Fetching username)] ++ trace1)) as H.
  destruct (fetch_loop _ _ _ _ _ _) as [l|]; [|done].
  destruct H as (pre & lst & Hs & Hlast & Hpre & Hreq).
  exists pre, lst.
  assert (unread_of (finish (OBS_CACHE_FP username) fs c l) = unread l
          /\ requests (trace_of (finish (OBS_CACHE_FP username) fs c l))
             = requests (loop_trace l)) as [-> ->].
  { unfold finish. destruct (new_observations l); simpl;
      rewrite requests_app; [destruct (valid_request l)|]; simpl;
      by rewrite app_nil_r. }
  repeat (split; [done|]).
  by rewrite Hreq, !requests_app, Hr0, Hstart.
Qed.

Lemma fetch_loop_skip_retries d1 script : forall page new n trace trace',
  match fetch_loop d1 script page new n trace,
        fetch_loop d1 (filter (fun resp => is_retry resp = false) script)
                   page new n trace' with
  | Some l, Some l' =>
      new_observations l = new_observations l' /\
      valid_request l = valid_request l'
  | None, None => True
  | _, _ => False
  end.
Proof.
  induction script as [|resp script IH]; intros page new n trace trace';
    [done|].
  rewrite filter_cons.
  destruct (decide (is_retry resp = false)) as [Hr|Hr].
  - unfold is_retry in Hr. cbn [fetch_loop].
    destruct (status_code resp =? 422) eqn:E422.
    + assert ((status_code resp =? 429) = false) as ->; [|done].
      apply Z.eqb_eq in E422. by rewrite E422.
    + destruct (status_code resp =? 200) eqn:E200; [|done].
      assert ((status_code resp =? 429) = false) as ->.
      { apply Z.eqb_eq in E200. by rewrite E200. }
      cbn [negb]. destruct (results resp) as [|o rs]; [done|].
      destruct (len (o :: rs) <? PER_PAGE); [done|]. apply IH.
  - apply not_false_is_true in Hr. unfold is_retry in Hr.
    apply andb_prop in Hr as [H200%negb_true_iff H422%negb_true_iff].
    cbn [fetch_loop]. rewrite H422, H200.
    destruct (status_code resp =? 429); apply IH.
Qed.

(** X17: rate limiting and other failed requests are invisible in the
    result: a run returns the same observations and leaves the same files
    as the run on the same answers without those that are neither 200 nor
    422, and it is still waiting exactly when that run is. *)
Theorem retries_are_transparent (next_day : string -> result string)
  (username : string) (fs : files) (script : list response) :
  match fetch_observations next_day username fs script,
        fetch_observations next_day username fs
          (filter (fun resp => is_retry resp = false) script) with
  | Returned r, Returned r' =>
      returned r = returned r' /\ files_after r = files_after r'
  | Raised e, Raised e' => e = e'
  | Waiting, Waiting => True
  | _, _ => False
  end.
Proof.
  unfold fetch_observations.
  destruct (load_cache _ _) as [[[c last] trace0]|]; [|done].
  destruct (start_date _ _) as [[d1 trace1]|]; [|done].
  pose proof (fetch_loop_skip_retries d1 script 1 [] 0
                (trace0 ++ [Log (Fetching username)] ++ trace1)
                (trace0 ++ [Log (Fetching username)] ++ trace1)) as H.
  destruct (fetch_loop _ script _ _ _ _) as [l|],
           (fetch_loop _ (filter _ _) _ _ _ _) as [l'|]; try done.
  destruct H as [Hnew Hval]. unfold finish. rewrite <- Hnew.
  by destruct (new_observations l).
Qed.

(** ** The last cached date *)

Lemma max_str_cases a b :
  (max_str a b = a /\ String.leb b a = true) \/
  (max_str a b = b /\ String.leb a b = true).
Proof.
  unfold max_str. destruct (String.ltb a b) eqn:E.
  - right. split; [done|]. by apply ltb_true_leb.
  - left. split; [done|]. rewrite ltb_leb in E. by apply negb_false_iff in E.
Qed.

Lemma foldl_max_str rest : forall d,
  foldl max_str d rest ∈ d :: rest /\
  forall d', d' ∈ d :: rest -> String.leb d' (foldl max_str d rest) = true.
Proof.
  induction rest as [|x rest IH]; intros d; simpl.
  - split; [left|]. intros d' ->%list_elem_of_singleton. apply leb_refl.
  - destruct (IH (max_str d x)) as [Hin Hle].
    destruct (max_str_cases d x) as [[Heq Hxd]|[Heq Hdx]]; rewrite Heq in *.
    + split.
      * apply elem_of_cons in Hin as [->|Hin]; [left|right; by right].
      * intros d' [->|[->|Hd']%elem_of_cons]%elem_of_cons.
        -- apply Hle. left.
        -- eapply leb_trans; [exact Hxd|]. apply Hle. left.
        -- apply Hle. by right.
    + split; [by right|].
      intros d' [->|[->|Hd']%elem_of_cons]%elem_of_cons.
      * eapply leb_trans; [exact Hdx|]. apply Hle. left.
      * apply Hle. left.
      * apply Hle. by right.
Qed.

(** X18: the last date read from the cache is the greatest [observed_on]
    of the cached observations, and there is none exactly when no cached
    observation has a date. *)
Theorem last_date_is_greatest (fs : files) (obs_cache_fp : string)
  (c : list Observation.t) (last : option string) (trace : list event) :
  load_cache fs obs_cache_fp = Ok (c, last, trace) ->
  match last with
  | Some d =>
      (exists o, o ∈ c /\ truthy_str (Observation.observed_on o) = Some d) /\
      forall o d', o ∈ c ->
        truthy_str (Observation.observed_on o) = Some d' ->
        String.leb d' d = true
  | None =>
      forall o, o ∈ c -> truthy_str (Observation.observed_on o) = None
  end.
Proof.
  unfold load_cache. destruct (fs !! obs_cache_fp) as [text|].
  2:{ intros [= <- <- <-]. by intros o ?%elem_of_nil. }
  destruct (json_load text) as [obs|]; simpl; [|done].
  intros [= <- <- <-].
  set (dates := omap (fun o => truthy_str (Observation.observed_on o)) obs).
  assert (forall d, d ∈ dates <->
    exists o, o ∈ obs /\ truthy_str (Observation.observed_on o) = Some d)
    as Hdates by (intros d; apply list_elem_of_omap).
  destruct dates as [|d rest] eqn:E; simpl.
  - intros o Ho. destruct (truthy_str _) as [d|] eqn:Hd; [|done].
    assert (d ∈ []) as H%elem_of_nil by (apply Hdates; eauto). done.
  - destruct (foldl_max_str rest d) as [Hin Hle]. split.
    + by apply Hdates.
    + intros o d' Ho Hd'. apply Hle. apply Hdates. eauto.
Qed.

Lemma last_date_is_greatest_witness :
  load_cache
    {[ "c" := json_dump [Observation.mk 1 (Some "2023-01-05") None;
                         Observation.mk 2 (Some "2024-02-01") None;
                         Observation.mk 3 None None] ]} "c"
  = Ok ([Observation.mk 1 (Some "2023-01-05") None;
         Observation.mk 2 (Some "2024-02-01") None;
         Observation.mk 3 None None],
        Some "2024-02-01",
        [Log (LoadingCache "c"); Log (LoadedCache 3);
         Log (LastCachedDate "2024-02-01")]) /\
  forall o d',
    o ∈ [Observation.mk 1 (Some "2023-01-05") None;
         Observation.mk 2 (Some "2024-02-01") None;
         Observation.mk 3 None None] ->
    truthy_str (Observation.observed_on o) = Some d' ->
    String.leb d' "2024-02-01" = true.
Proof.
  split; [vm_compute; reflexivity|].
  apply (last_date_is_greatest
           {[ "c" := json_dump [Observation.mk 1 (Some "2023-01-05") None;
                                Observation.mk 2 (Some "2024-02-01") None;
                                Observation.mk 3 None None] ]} "c"
           [Observation.mk 1 (Some "2023-01-05") None;
            Observation.mk 2 (Some "2024-02-01") None;
            Observation.mk 3 None None]
           (Some "2024-02-01")
           [Log (LoadingCache "c"); Log (LoadedCache 3);
            Log (LastCachedDate "2024-02-01")]).
  vm_compute; reflexivity.
Defined.

(** ** What a run returns and leaves in the cache *)

Lemma merge_nil c : merge c [] = c.
Proof. unfold merge. by rewrite filter_nil, app_nil_r. Qed.

Lemma fetch_observations_merge next_day username fs script r :
  fetch_observations next_day username fs script = Returned r ->
  exists c consumed,
    cached fs username = Ok c /\
    script = consumed ++ unread_of r /\
    returned r = merge c (fetched_results consumed) /\
    files_after r =
      match fetched_results consumed with
      | [] => fs
      | _ => <[OBS_CACHE_FP username := json_dump (returned r)]> fs
      end.
Proof.
  intros (c & consumed & Hc & Hs & _ & Hret & Hfs)%fetch_observations_spec.
  exists c, consumed. rewrite Hfs, Hret.
  destruct (fetched_results consumed); [by rewrite merge_nil|].
  by rewrite persist_all.
Qed.

(** X19: a run returns the cached observations, in their order, followed
    by the fetched records whose id is not in the cache, in the order they
    were fetched: no such record is lost and none is reordered. *)
Theorem returned_is_cache_then_new (next_day : string -> result string)
  (username : string) (fs : files) (script : list response) (r : fetched) :
  fetch_observations next_day username fs script = Returned r ->
  exists c consumed,
    cached fs username = Ok c /\
    script = consumed ++ unread_of r /\
    returned r =
      c ++ filter (fun o => Observation.id o ∉ ids c)
                  (fetched_results consumed).
Proof.
  intros (c & consumed & Hc & Hs & Hret & _)%fetch_observations_merge.
  exists c, consumed. split; [done|]. split; [done|].
  rewrite Hret. unfold merge. f_equal. apply list_filter_iff.
  intros o. unfold ids. by rewrite elem_of_list_to_set.
Qed.

Lemma returned_is_cache_then_new_witness :
  exists r,
    fetch_observations no_calendar "u"
      {[ OBS_CACHE_FP "u" := json_dump [Observation.mk 1 None None] ]}
      [mk_response 200 [Observation.mk 1 None None; Observation.mk 2 None None]]
      = Returned r /\
    returned r = [Observation.mk 1 None None; Observation.mk 2 None None] /\
    exists c consumed,
      cached {[ OBS_CACHE_FP "u" := json_dump [Observation.mk 1 None None] ]}
        "u" = Ok c /\
      [mk_response 200 [Observation.mk 1 None None; Observation.mk 2 None None]]
        = consumed ++ unread_of r /\
      returned r =
        c ++ filter (fun o => Observation.id o ∉ ids c)
                    (fetched_results consumed).
Proof.
  eexists. split; [vm_compute; reflexivity|]. split; [reflexivity|].
  apply (returned_is_cache_then_new no_calendar "u" _
           [mk_response 200
              [Observation.mk 1 None None; Observation.mk 2 None None]]).
  vm_compute; reflexivity.
Defined.

Lemma cached_after next_day username fs script r :
  fetch_observations next_day username fs script = Returned r ->
  cached (files_after r) username = Ok (returned r).
Proof.
  intros (c & consumed & Hc & _ & Hret & Hfs)%fetch_observations_merge.
  rewrite Hfs. destruct (fetched_results consumed).
  - rewrite Hret, merge_nil. done.
  - unfold cached. rewrite lookup_insert_eq. apply json_load_dump.
Qed.

(** X20: after a run that returns, the cache file of the user holds what
    the run returned: loading it gives the returned observations. *)
Theorem cache_holds_what_was_returned (next_day : string -> result string)
  (username : string) (fs : files) (script : list response) (r : fetched) :
  fetch_observations next_day username fs script = Returned r ->
  cached (files_after r) username = Ok (returned r).
Proof. apply cached_after. Qed.

Lemma cache_holds_what_was_returned_witness :
  exists r,
    fetch_observations no_calendar "u" ∅
      [mk_response 200 [Observation.mk 1 None None]] = Returned r /\
    cached (files_after r) "u" = Ok (returned r).
Proof.
  eexists. split; [vm_compute; reflexivity|].
  apply (cache_holds_what_was_returned no_calendar "u" ∅
           [mk_response 200 [Observation.mk 1 None None]]).
  vm_compute; reflexivity.
Defined.

Lemma append_length s t :
  String.length (String.append s t) = (String.length s + String.length t)%nat.
Proof.
  induction s as [|c s IH]; [done|].
  change (S (String.length (String.append s t)) =
          S (String.length s + String.length t)).
  by rewrite IH.
Qed.

Lemma append_inj_l s : forall a b,
  String.append s a = String.append s b -> a = b.
Proof.
  induction s as [|c s IH]; intros a b; [done|].
  intros [= H]. by apply IH.
Qed.

Lemma append_inj_r t : forall a b,
  String.append a t = String.append b t -> a = b.
Proof.
  intros a b H.
  assert (String.length a = String.length b) as Hlen.
  { apply (f_equal String.length) in H. rewrite !append_length in H. lia. }
  revert b H Hlen. induction a as [|c a IH]; intros [|c' b]; try done.
  intros [= -> H] [= Hlen]. f_equal. by apply IH.
Qed.

Lemma OBS_CACHE_FP_inj u u' : OBS_CACHE_FP u = OBS_CACHE_FP u' -> u = u'.
Proof.
  unfold OBS_CACHE_FP. intros H%append_inj_l. by apply append_inj_r in H.
Qed.

(** X21: a run touches no file but the cache file of its user: every other
    path is left as it was, and so is the cache of every other user. *)
Theorem other_files_untouched (next_day : string -> result string)
  (username : string) (fs : files) (script : list response) (r : fetched) :
  fetch_observations next_day username fs script = Returned r ->
  (forall p, p <> OBS_CACHE_FP username -> files_after r !! p = fs !! p) /\
  (forall other, other <> username ->
     cached (files_after r) other = cached fs other).
Proof.
  intros (c & consumed & _ & _ & _ & Hfs)%fetch_observations_merge.
  assert (forall p, p <> OBS_CACHE_FP username ->
          files_after r !! p = fs !! p) as Hp.
  { intros p Hne. rewrite Hfs. destruct (fetched_results consumed); [done|].
    by rewrite lookup_insert_ne. }
  split; [done|]. intros other Hne. unfold cached. rewrite Hp; [done|].
  intros Heq. by apply OBS_CACHE_FP_inj in Heq.
Qed.

Lemma other_files_untouched_witness :
  exists r,
    fetch_observations no_calendar "u"
      {[ OBS_CACHE_FP "v" := json_dump [Observation.mk 7 None None] ]}
      [mk_response 200 [Observation.mk 1 None None]] = Returned r /\
    cached (files_after r) "v" = Ok [Observation.mk 7 None None].
Proof.
  eexists. split; [vm_compute; reflexivity|].
  refine (eq_trans
    (proj2 (other_files_untouched no_calendar "u"
       {[ OBS_CACHE_FP "v" := json_dump [Observation.mk 7 None None] ]}
       [mk_response 200 [Observation.mk 1 None None]] _ _) "v" _) _).
  - vm_compute; reflexivity.
  - discriminate.
  - vm_compute; reflexivity.
Defined.

(** X22: running again on the files a run has left, when the remote
    source then has nothing to return, gives the observations of the first
    run again and changes no file. *)
Theorem second_run_changes_nothing (next_day : string -> result string)
  (username : string) (fs : files) (script script' : list response)
  (r r' : fetched) :
  fetch_observations next_day username fs script = Returned r ->
  fetch_observations next_day username (files_after r) script' = Returned r' ->
  exists consumed',
    script' = consumed' ++ unread_of r' /\
    (fetched_results consumed' = [] ->
     returned r' = returned r /\ files_after r' = files_after r).
Proof.
  intros Hc%cached_after
    (c' & consumed' & Hc' & Hs' & _ & Hret' & Hfs')%fetch_observations_spec.
  exists consumed'. split; [done|]. intros Hnil.
  rewrite Hnil in Hret', Hfs'. split; [congruence|done].
Qed.

Lemma second_run_changes_nothing_witness :
  exists r r',
    fetch_observations no_calendar "u" ∅
      [mk_response 200 [Observation.mk 1 None None]] = Returned r /\
    fetch_observations no_calendar "u" (files_after r) [mk_response 200 []]
      = Returned r' /\
    exists consumed',
      [mk_response 200 []] = consumed' ++ unread_of r' /\
      (fetched_results consumed' = [] ->
       returned r' = returned r /\ files_after r' = files_after r).
Proof.
  eexists _, _. split; [vm_compute; reflexivity|].
  split; [vm_compute; reflexivity|].
  apply (second_run_changes_nothing no_calendar "u" ∅
           [mk_response 200 [Observation.mk 1 None None]]
           [mk_response 200 []]);
    vm_compute; reflexivity.
Defined.

(** ** The reduction as a whole *)

Lemma collapse_to_species_witness :
  exists r info,
    reduce ex_obs = Ok r /\
    (10, info) ∈ leaves_of r /\
    species_id_of (infos_of r) info = Some 2 /\
    length (filter (fun kv => kv.1 = 2) (final_leaf_taxon_id_to_info r))
      = 1%nat /\
    (10 ∉ od_keys (final_leaf_taxon_id_to_info r)).
Proof.
  destruct (collapse_to_species ex_obs 10
              (TaxonInfo.mk 10 (Some "subspecies") [1; 2] (Some "Foo bar baz")
                 (Some EmptyString)) 2) as (r & Hr & H).
  exists r, (TaxonInfo.mk 10 (Some "subspecies") [1; 2] (Some "Foo bar baz")
               (Some EmptyString)).
  assert ((10, TaxonInfo.mk 10 (Some "subspecies") [1; 2] (Some "Foo bar baz")
                 (Some EmptyString)) ∈ leaves_of r /\
          species_id_of (infos_of r)
            (TaxonInfo.mk 10 (Some "subspecies") [1; 2] (Some "Foo bar baz")
               (Some EmptyString)) = Some 2) as [H1 H2].
  { vm_compute in Hr. injection Hr as <-. split; [left|reflexivity]. }
  destruct (H H1 H2 ltac:(discriminate)) as (H3 & H4 & _).
  repeat split; assumption.
Defined.

(** X23: the reduction never raises: the species found by the search of
    the ancestor list is always a key of the taxon map, so the lookup of the
    parent (line 125) cannot fail. *)
Theorem reduction_never_raises (observations : list Observation.t) :
  exists r, reduce observations = Ok r /\
    infos_of r = taxon_id_to_info (build_tables observations) /\
    leaves_of r = leaf_taxa (infos_of r).
Proof.
  destruct (reduce_total observations) as [r Hr]. exists r. split; [done|].
  by apply reduce_Ok in Hr as (st & _ & ->).
Qed.

(** X24: the final leaf dictionary has each key once, and the entry under
    a key is the taxon map's entry for that key, whose [id] is the key. *)
Theorem final_entries_from_taxon_map (observations : list Observation.t) :
  exists r, reduce observations = Ok r /\
    NoDup (od_keys (final_leaf_taxon_id_to_info r)) /\
    forall k v, od_get (final_leaf_taxon_id_to_info r) k = Some v ->
      od_get (infos_of r) k = Some v /\ TaxonInfo.id v = k.
Proof.
  destruct (reduce_total observations) as [r Hr]. exists r. split; [done|].
  apply reduce_Ok in Hr as (st & Hst & ->). simpl.
  pose proof (infos_NoDup observations) as Hnd.
  apply collapse_keys in Hst as (Hnd' & _ & Hvals);
    [|apply infos_id|by apply leaf_taxa_get].
  split; [done|]. intros k v Hv%Hvals. split; [done|].
  by eapply infos_id.
Qed.

(** ** The start date of the requests *)

Lemma request_dates_app t1 t2 :
  request_dates (t1 ++ t2) = request_dates t1 ++ request_dates t2.
Proof. apply omap_app. Qed.

Lemma fetch_loop_request_dates d1 script : forall page new n trace l,
  fetch_loop d1 script page new n trace = Some l ->
  Forall (fun d => d = d1) (request_dates trace) ->
  Forall (fun d => d = d1) (request_dates (loop_trace l)).
Proof.
  induction script as [|resp script IH]; intros page new n trace l; [done|].
  cbn [fetch_loop]. intros Hl Htrace.
  assert (forall tail, request_dates tail = [] ->
    Forall (fun d => d = d1)
      (request_dates ((trace ++ [Get d1 page]) ++ tail))) as Hext.
  { intros tail Ht. rewrite !request_dates_app, Ht, app_nil_r.
    apply Forall_app. split; [done|]. by constructor. }
  destruct (status_code resp =? 429).
  { eapply IH; [exact Hl|]. by apply Hext. }
  destruct (status_code resp =? 422).
  { injection Hl as <-. by apply Hext. }
  destruct (negb (status_code resp =? 200)).
  { eapply IH; [exact Hl|]. by apply Hext. }
  destruct (results resp) as [|o rs].
  { injection Hl as <-. simpl. rewrite <- (app_nil_r (trace ++ _)).
    by apply Hext. }
  destruct (len (o :: rs) <? PER_PAGE).
  { injection Hl as <-. by apply Hext. }
  eapply IH; [exact Hl|]. rewrite request_dates_app. simpl.
  rewrite app_nil_r. by apply Hext.
Qed.

(** X25: every request of a run carries the same start date: none when
    the cache holds no dated observation, and else the day after the last
    cached date, as the calendar gives it; when the calendar raises on the
    last cached date the run raises before any request. *)
Theorem requests_start_after_last_date (next_day : string -> result string)
  (username : string) (fs : files) (script : list response)
  (c : list Observation.t) (last : option string) (trace0 : list event) :
  load_cache fs (OBS_CACHE_FP username) = Ok (c, last, trace0) ->
  match truthy_str last, fetch_observations next_day username fs script with
  | None, Returned r =>
      Forall (fun d => d = None) (request_dates (trace_of r))
  | Some d, Returned r =>
      exists d', next_day d = Ok d' /\
        Forall (fun d1 => d1 = Some d') (request_dates (trace_of r))
  | Some d, Raised e => next_day d = Raise e
  | Some d, Waiting => exists d', next_day d = Ok d'
  | None, Raised _ => False
  | None, Waiting => True
  end.
Proof.
  intros Hload. unfold fetch_observations. rewrite Hload.
  apply load_cache_cached in Hload as [_ Hr0].
  assert (request_dates trace0 = []) as Hd0.
  { revert Hr0. unfold requests, request_dates.
    induction trace0 as [|[m|d p|ms] trace0 IH]; simpl; try done. }
  assert (forall d1 l tail,
    request_dates tail = [] ->
    fetch_loop d1 script 1 [] 0 (trace0 ++ [Log (Fetching username)] ++ tail)
      = Some l ->
    Forall (fun d => d = d1)
      (request_dates (trace_of (finish (OBS_CACHE_FP username) fs c l))))
    as Hrun.
  { intros d1 l tail Htail Hl.
    apply fetch_loop_request_dates in Hl.
    - unfold finish. destruct (new_observations l); simpl;
        rewrite request_dates_app; [destruct (valid_request l)|]; simpl;
        by rewrite app_nil_r.
    - rewrite !request_dates_app, Hd0, Htail. simpl. constructor. }
  unfold start_date. destruct (truthy_str last) as [d|].
  - destruct (next_day d) as [d'|e]; simpl; [|done].
    destruct (fetch_loop _ _ _ _ _ _) as [l|] eqn:Hl; [|by eexists].
    exists d'. split; [done|].
    by apply (Hrun (Some d') l [Log (StartingOn d')]).
  - simpl. destruct (fetch_loop _ _ _ _ _ _) as [l|] eqn:Hl; [|done].
    by apply (Hrun None l []).
Qed.

Lemma requests_start_after_last_date_witness :
  load_cache ∅ (OBS_CACHE_FP "u") = Ok ([], None, []) /\
  match fetch_observations no_calendar "u" ∅ [mk_response 200 []] with
  | Returned r => Forall (fun d => d = None) (request_dates (trace_of r))
  | _ => False
  end.
Proof.
  split; [vm_compute; reflexivity|].
  exact (requests_start_after_last_date no_calendar "u" ∅
           [mk_response 200 []] [] None [] eq_refl).
Defined.
